(** * Folder retrieval and context assembly of projectgpt

    A shallow embedding of the pieces of the repository that the
    specification talks about:
    - [ContextManager]: [src/lib/context-manager.ts] ([estimateTokens],
      [truncateText], [buildContext]);
    - [Chunker]: [FolderRAGService.chunkDocument] and its helpers
      ([splitIntoSentences], [estimateTokens]);
    - [Similarity]: [FolderRAGService.cosineSimilarity];
    - [Store] and [Search]: the two storage back ends of [FolderRAGService]
      (IndexedDB object stores and the in-memory [Map]),
      [searchSimilarContent], [buildContextForQuery];
    - [FolderContext]: [FolderContextManager.buildRAGContext];
    - [Graph]: [updateKnowledgeGraph] and [storeKnowledgeGraph];
    - [Inputs], [RAGInputs], [SystemPrompt], [FolderManager]: the rest of
      [FolderContextManager] ([setFolderConfig], [getFolderConfig],
      [buildFolderContext], [buildFolderSystemPrompt], [clearFolderContext])
      and [buildSystemPrompt];
    - [Ingest]: [addDocument], [processDocumentAsync],
      [generateEmbeddingsForChunks], [getDocumentType], [extractConcepts];
    - [Cleanup]: [deleteDocument] and [cleanupFolder];
    - [ModelLimits]: [getModelLimits] and [validateContext].

    Strings are Rocq [string]s of ASCII characters; JS numbers holding
    integers are [Z]; vector entries and similarity scores are reals. *)

From Stdlib Require Import ZArith Lia Reals Lra String Ascii Sorted.
From stdpp Require Import base list gmap strings pretty.


(** ** JS string helpers *)
Module JS.
Local Open Scope string_scope.

(** [s.substring(0, e)]: a negative end is clamped to 0, an end past the
    length to the length. *)
Definition substring0 (s : string) (e : Z) : string :=
  String.substring 0 (Z.to_nat e) s.

(** [s.lastIndexOf(c)] for a one-character needle; -1 when absent. *)
Fixpoint lastIndexOf (c : ascii) (s : string) : Z :=
  match s with
  | EmptyString => -1
  | String x s' =>
      let r := lastIndexOf c s' in
      if (0 <=? r)%Z then (r + 1)%Z
      else if ascii_dec x c then 0%Z else (-1)%Z
  end.

(** A run of [n] copies of [c], used to build test inputs. *)
Fixpoint rep (n : nat) (c : ascii) : string :=
  match n with O => EmptyString | S k => String c (rep k c) end.

(** ASCII characters removed by [String.prototype.trim]. *)
Definition isWS (c : ascii) : bool :=
  let n := nat_of_ascii c in
  (n =? 32)%nat || (n =? 9)%nat || (n =? 10)%nat || (n =? 11)%nat
  || (n =? 12)%nat || (n =? 13)%nat.

Fixpoint trimStart (s : string) : string :=
  match s with
  | EmptyString => EmptyString
  | String c s' => if isWS c then trimStart s' else s
  end.

Fixpoint trimEnd (s : string) : string :=
  match s with
  | EmptyString => EmptyString
  | String c s' =>
      let t := trimEnd s' in
      match t with
      | EmptyString => if isWS c then EmptyString else String c EmptyString
      | _ => String c t
      end
  end.

Definition trim (s : string) : string := trimEnd (trimStart s).

(** [text.length] as a JS number. *)
Definition len (s : string) : Z := Z.of_nat (String.length s).

End JS.

(** ** src/lib/context-manager.ts *)
Module ContextManager.
Local Open Scope string_scope.

Inductive Role := RSystem | RUser | RAssistant.

Definition Role_eqb (a b : Role) : bool :=
  match a, b with
  | RSystem, RSystem | RUser, RUser | RAssistant, RAssistant => true
  | _, _ => false
  end.

Record OpenRouterMessage := mkMsg { role : Role; content : string }.

Record MessageContext := mkCtx {
  messages : list OpenRouterMessage;
  totalTokens : Z;
  truncated : bool
}.

Record TokenLimits := mkLimits {
  maxTokens : Z;
  maxMessages : Z;
  reserveTokens : Z
}.

(** [Partial<TokenLimits>]: an absent field is [None]. *)
Record PartialTokenLimits := mkPLimits {
  pMaxTokens : option Z;
  pMaxMessages : option Z;
  pReserveTokens : option Z
}.

Definition DEFAULT_LIMITS : TokenLimits := mkLimits 8000 20 1500.

(** [{ ...DEFAULT_LIMITS, ...limits }] *)
Definition finalLimits (l : PartialTokenLimits) : TokenLimits :=
  mkLimits (default (maxTokens DEFAULT_LIMITS) (pMaxTokens l))
           (default (maxMessages DEFAULT_LIMITS) (pMaxMessages l))
           (default (reserveTokens DEFAULT_LIMITS) (pReserveTokens l)).

(** [Math.ceil(text.length / 4)] *)
Definition estimateTokens (text : string) : Z := ((JS.len text + 3) / 4)%Z.

Definition estimateMessageTokens (m : OpenRouterMessage) : Z :=
  (estimateTokens (content m) + 10)%Z.

(** [truncateText]; [lastSpace > maxChars * 0.8] is compared exactly as
    [5 * lastSpace > 4 * maxChars] (both sides are integers). *)
Definition truncateText (text : string) (maxTok : Z) : string :=
  let maxChars := (maxTok * 4)%Z in
  if (JS.len text <=? maxChars)%Z then text
  else
    let truncated := JS.substring0 text maxChars in
    let lastSpace := JS.lastIndexOf " "%char truncated in
    if (4 * maxChars <? 5 * lastSpace)%Z
    then JS.substring0 truncated lastSpace +:+ "..."
    else truncated +:+ "...".

Definition systemMessage (systemPrompt : string) : OpenRouterMessage :=
  mkMsg RSystem systemPrompt.

Definition availableTokens (systemPrompt : string) (fl : TokenLimits) : Z :=
  (maxTokens fl - reserveTokens fl
   - estimateMessageTokens (systemMessage systemPrompt))%Z.

(** Step 3: the latest message, included when its role is user. The result
    is [(selectedMessages, usedTokens, truncated)]. *)
Definition latestStep (avail : Z) (latest : OpenRouterMessage)
    : list OpenRouterMessage * Z * bool :=
  if Role_eqb (role latest) RUser then
    let tokens := estimateMessageTokens latest in
    if (tokens <=? avail)%Z then ([latest], tokens, false)
    else
      let truncatedContent := truncateText (content latest) (avail - 10) in
      ([mkMsg (role latest) truncatedContent],
       (estimateTokens truncatedContent + 10)%Z, true)
  else ([], 0%Z, false).

(** Step 4: the [for (let i = 1; ...; i += 2)] loop over
    [reversedMessages], given here from index 1 on. [unshift] prepends. *)
Fixpoint pairWalk (fl : TokenLimits) (avail : Z) (rest : list OpenRouterMessage)
    (sel : list OpenRouterMessage) (used : Z) (tr : bool)
    : list OpenRouterMessage * Z * bool :=
  match rest with
  | assistantMessage :: userMessage :: rest' =>
      let pairTokens := (estimateMessageTokens assistantMessage
                         + estimateMessageTokens userMessage)%Z in
      if (used + pairTokens <=? avail)%Z
         && (Z.of_nat (length sel) + 2 <=? maxMessages fl)%Z
      then pairWalk fl avail rest' (userMessage :: assistantMessage :: sel)
             (used + pairTokens)%Z tr
      else (sel, used, true)
  | _ => (sel, used, tr)
  end.

Definition buildContext (msgs : list OpenRouterMessage) (systemPrompt : string)
    (limits : PartialTokenLimits) : MessageContext :=
  let fl := finalLimits limits in
  let sys := systemMessage systemPrompt in
  let systemTokens := estimateMessageTokens sys in
  let avail := availableTokens systemPrompt fl in
  match msgs with
  | [] => mkCtx [sys] systemTokens false
  | _ =>
      let reversedMessages := rev msgs in
      let '(sel0, used0, tr0) :=
        match reversedMessages with
        | latest :: _ => latestStep avail latest
        | [] => ([], 0%Z, false)
        end in
      let '(sel, used, tr) :=
        pairWalk fl avail (tail reversedMessages) sel0 used0 tr0 in
      mkCtx (sys :: sel) (systemTokens + used)%Z tr
  end.

End ContextManager.

(** ** Records of src/lib/indexeddb.ts used by the RAG service

    Dates, sizes, random node positions and free-form metadata other than
    the fields read by the code below are left out. *)
Module Model.

Record FolderDocument := mkDoc {
  docId : string;
  docFolderId : Z;
  docUserId : string;
  docName : string;
  docType : string;
  docContent : string
}.

(** [FolderChunk]; [metadata.documentName] and [metadata.documentType] are
    the two fields [chunkDocument] writes into [metadata]. *)
Record FolderChunk := mkChunk {
  chunkId : string;
  documentId : string;
  folderId : Z;
  userId : string;
  content : string;
  startOffset : Z;
  endOffset : Z;
  chunkIndex : nat;
  tokenCount : Z;
  documentName : string;
  documentType : string
}.

Record FolderEmbedding := mkEmb {
  embId : string;
  embFolderId : Z;
  embUserId : string;
  vector : list R;
  dimensions : nat;
  model : string
}.

Record KnowledgeNode := mkNode {
  nodeId : string;
  nodeType : string;
  label : string;
  nodeContent : string;
  documentIds : list string;
  chunkIds : list string
}.

Record KnowledgeEdge := mkEdge {
  edgeId : string;
  sourceId : string;
  targetId : string;
  edgeType : string;
  weight : R
}.

Record FolderKnowledgeGraph := mkGraph {
  graphId : string;
  graphFolderId : Z;
  graphUserId : string;
  nodes : list KnowledgeNode;
  edges : list KnowledgeEdge;
  documentCount : Z
}.

End Model.

(** ** FolderRAGService.chunkDocument and its helpers *)
Module Chunker.
Import Model.
Abbreviation trim := JS.trim.
Local Open Scope string_scope.

Record ChunkConfig := mkConfig { cMaxTokens : Z; cOverlap : Z; cMinChunkSize : Z }.

Definition CHUNK_CONFIG : ChunkConfig := mkConfig 512 50 100.

(** [Math.ceil(text.length / 4)] *)
Definition estimateTokens (text : string) : Z := ((JS.len text + 3) / 4)%Z.

Definition isPunct (c : ascii) : bool :=
  (c =? ".")%char || (c =? "!")%char || (c =? "?")%char.

(** [text.split(/[.!?]+/)]: the first piece and the remaining pieces;
    a maximal run of [.!?] is one separator. *)
Fixpoint splitGo (s : string) : string * list string :=
  match s with
  | EmptyString => (EmptyString, [])
  | String c s' =>
      let '(p, ps) := splitGo s' in
      if isPunct c then
        match s' with
        | String c' _ => if isPunct c' then (p, ps) else (EmptyString, p :: ps)
        | EmptyString => (EmptyString, p :: ps)
        end
      else (String c p, ps)
  end.

Definition splitPunct (s : string) : list string :=
  let '(p, ps) := splitGo s in p :: ps.

(** [splitIntoSentences] *)
Definition splitIntoSentences (text : string) : list string :=
  List.filter (fun s => negb (String.eqb (trim s) "")) (splitPunct text).

(** [arr.join(' ')] *)
Fixpoint joinSp (l : list string) : string :=
  match l with
  | [] => ""
  | [x] => x
  | x :: l' => x +:+ " " +:+ joinSp l'
  end.

(** [arr.slice(start)] *)
Definition sliceFrom {A} (l : list A) (start : Z) : list A :=
  if (start <? 0)%Z
  then drop (Z.to_nat (Z.max 0 (Z.of_nat (length l) + start))) l
  else drop (Z.to_nat start) l.

Definition mkFolderChunk (newId : nat -> string) (document : FolderDocument)
    (currentChunk : string) (startOffset : Z) (chunkIndex : nat)
    : FolderChunk :=
  mkChunk (newId chunkIndex) (docId document) (docFolderId document)
    (docUserId document) (trim currentChunk) startOffset
    (startOffset + JS.len currentChunk)%Z chunkIndex
    (estimateTokens currentChunk) (docName document) (docType document).

(** The [for (const sentence of sentences)] loop. The state is
    [(currentChunk, chunkIndex, startOffset, chunks)]. *)
Fixpoint chunkLoop (newId : nat -> string) (document : FolderDocument)
    (sentences rest : list string) (currentChunk : string) (chunkIndex : nat)
    (startOffset : Z) (chunks : list FolderChunk)
    : string * nat * Z * list FolderChunk :=
  match rest with
  | [] => (currentChunk, chunkIndex, startOffset, chunks)
  | sentence :: rest' =>
      let potentialChunk :=
        currentChunk +:+ (if String.eqb currentChunk "" then "" else " ")
        +:+ sentence in
      if (cMaxTokens CHUNK_CONFIG <? estimateTokens potentialChunk)%Z
         && negb (String.eqb currentChunk "")
      then
        let chunk := mkFolderChunk newId document currentChunk startOffset
                       chunkIndex in
        let overlapSentences := sliceFrom sentences (- cOverlap CHUNK_CONFIG) in
        chunkLoop newId document sentences rest'
          (joinSp overlapSentences +:+ " " +:+ sentence) (S chunkIndex)
          (endOffset chunk - JS.len (joinSp overlapSentences))%Z
          (chunks ++ [chunk])
      else
        chunkLoop newId document sentences rest' potentialChunk chunkIndex
          startOffset chunks
  end.

(** [chunkDocument]; chunk ids come from [crypto.randomUUID()], given here
    as [newId] indexed by the chunk index. *)
Definition chunkDocument (newId : nat -> string) (document : FolderDocument)
    : list FolderChunk :=
  let sentences := splitIntoSentences (docContent document) in
  let '(currentChunk, chunkIndex, startOffset, chunks) :=
    chunkLoop newId document sentences sentences "" 0 0%Z [] in
  if negb (String.eqb (trim currentChunk) "")
     && (cMinChunkSize CHUNK_CONFIG <=? estimateTokens currentChunk)%Z
  then chunks ++ [mkFolderChunk newId document currentChunk startOffset chunkIndex]
  else chunks.

(** Shapes used to state what the chunks cover: a buffer made of a run of
    sentences, seeded or not with an overlap text. *)
Definition seededBuffer (seed : option string) (run : list string) : string :=
  match seed with
  | None => joinSp run
  | Some s => s +:+ " " +:+ joinSp run
  end.

Definition seedOf (seed : string) (runs : list (list string)) : option string :=
  match runs with [] => None | _ => Some seed end.

Fixpoint runBuffers (seed : string) (first : bool) (runs : list (list string))
    : list string :=
  match runs with
  | [] => []
  | r :: rs =>
      seededBuffer (if first then None else Some seed) r
      :: runBuffers seed false rs
  end.

(** [next] starts with a non-empty text that ends [prev]. *)
Definition sharesOverlap (prev next : string) : bool :=
  existsb (fun k => String.eqb (String.substring (String.length prev - k) k prev)
                               (String.substring 0 k next))
    (seq 1 (Nat.min (String.length prev) (String.length next))).

End Chunker.

(** ** FolderRAGService.cosineSimilarity

    Vector entries are reals. [a.reduce((sum, val, i) => sum + val * b[i], 0)]
    reads [b[i]] for every index of [a]; the model pairs the entries with
    [combine], which agrees with the source on vectors of equal length (the
    only ones the statements below are about). *)
Module Similarity.
Local Open Scope R_scope.

Definition dotProduct (a b : list R) : R :=
  fold_left (fun sum xy => sum + fst xy * snd xy) (combine a b) 0.

Definition magnitude (a : list R) : R :=
  sqrt (fold_left (fun sum v => sum + v * v) a 0).

Definition cosineSimilarity (a b : list R) : R :=
  dotProduct a b / (magnitude a * magnitude b).

End Similarity.

(** ** Storage of FolderRAGService

    Two back ends, chosen once by the constructor: the IndexedDB object
    stores, and the in-memory [Map<string, unknown>] used when IndexedDB is
    not available. *)
Module Store.
Import Model.
Local Open Scope string_scope.

(** The values the service puts in [memoryStore], tagged by what they are. *)
Inductive MVal :=
  | MDocs (l : list FolderDocument)
  | MChunks (l : list FolderChunk)
  | MEmbs (l : list FolderEmbedding)
  | MGraph (g : FolderKnowledgeGraph).

(** The IndexedDB object stores, each as the list of its records. *)
Record IDBState := mkIDB {
  folderDocuments : list FolderDocument;
  folderChunks : list FolderChunk;
  folderEmbeddings : list FolderEmbedding;
  folderKnowledgeGraphs : list FolderKnowledgeGraph
}.

Inductive Backend :=
  | Memory (m : gmap string MVal)
  | IndexedDB (db : IDBState).

(** [`${prefix}-${folderId}-${userId}`] *)
Definition memKey (prefix : string) (folderId : Z) (userId : string) : string :=
  prefix +:+ "-" +:+ pretty folderId +:+ "-" +:+ userId.

Definition docsKey := memKey "docs".
Definition chunksKey := memKey "chunks".
Definition embeddingsKey := memKey "embeddings".
Definition graphKey := memKey "graph".

Definition memDocs (m : gmap string MVal) (k : string) : list FolderDocument :=
  match m !! k with Some (MDocs l) => l | _ => [] end.
Definition memChunks (m : gmap string MVal) (k : string) : list FolderChunk :=
  match m !! k with Some (MChunks l) => l | _ => [] end.
Definition memEmbs (m : gmap string MVal) (k : string) : list FolderEmbedding :=
  match m !! k with Some (MEmbs l) => l | _ => [] end.

(** [db.add(store, record)] fails when the primary key is taken; the
    [store*] methods rethrow, modelled as [None]. *)
Definition idbAdd {A} (key : A -> string) (x : A) (l : list A) : option (list A) :=
  if existsb (fun y => String.eqb (key y) (key x)) l then None else Some (app l [x]).

(** [db.put(store, record)] replaces the record with the same key. *)
Definition idbPut {A} (key : A -> string) (x : A) (l : list A) : list A :=
  app (List.filter (fun y => negb (String.eqb (key y) (key x))) l) [x].

Definition storeDocument (d : FolderDocument) (s : Backend) : option Backend :=
  match s with
  | Memory m =>
      let k := docsKey (docFolderId d) (docUserId d) in
      Some (Memory (<[k := MDocs (app (memDocs m k) [d])]> m))
  | IndexedDB db =>
      l ← idbAdd docId d (folderDocuments db);
      Some (IndexedDB (mkIDB l (folderChunks db) (folderEmbeddings db)
                         (folderKnowledgeGraphs db)))
  end.

Definition storeChunk (c : FolderChunk) (s : Backend) : option Backend :=
  match s with
  | Memory m =>
      let k := chunksKey (folderId c) (userId c) in
      Some (Memory (<[k := MChunks (app (memChunks m k) [c])]> m))
  | IndexedDB db =>
      l ← idbAdd chunkId c (folderChunks db);
      Some (IndexedDB (mkIDB (folderDocuments db) l (folderEmbeddings db)
                         (folderKnowledgeGraphs db)))
  end.

Definition storeEmbedding (e : FolderEmbedding) (s : Backend) : option Backend :=
  match s with
  | Memory m =>
      let k := embeddingsKey (embFolderId e) (embUserId e) in
      Some (Memory (<[k := MEmbs (app (memEmbs m k) [e])]> m))
  | IndexedDB db =>
      l ← idbAdd embId e (folderEmbeddings db);
      Some (IndexedDB (mkIDB (folderDocuments db) (folderChunks db) l
                         (folderKnowledgeGraphs db)))
  end.

Definition storeKnowledgeGraph (g : FolderKnowledgeGraph) (s : Backend) : Backend :=
  match s with
  | Memory m =>
      Memory (<[graphKey (graphFolderId g) (graphUserId g) := MGraph g]> m)
  | IndexedDB db =>
      IndexedDB (mkIDB (folderDocuments db) (folderChunks db)
                   (folderEmbeddings db)
                   (idbPut graphId g (folderKnowledgeGraphs db)))
  end.

(** [getAllFromIndex(store, 'by-folder-user', [folderId, userId])]. *)
Definition getChunks (s : Backend) (folderId' : Z) (userId' : string)
    : list FolderChunk :=
  match s with
  | Memory m => memChunks m (chunksKey folderId' userId')
  | IndexedDB db =>
      List.filter (fun c => (Z.eqb (folderId c) folderId')
                            && String.eqb (userId c) userId') (folderChunks db)
  end.

Definition getEmbeddings (s : Backend) (folderId' : Z) (userId' : string)
    : list FolderEmbedding :=
  match s with
  | Memory m => memEmbs m (embeddingsKey folderId' userId')
  | IndexedDB db =>
      List.filter (fun e => (Z.eqb (embFolderId e) folderId')
                            && String.eqb (embUserId e) userId')
        (folderEmbeddings db)
  end.

Definition getKnowledgeGraph (s : Backend) (folderId' : Z) (userId' : string)
    : option FolderKnowledgeGraph :=
  match s with
  | Memory m =>
      match m !! graphKey folderId' userId' with
      | Some (MGraph g) => Some g
      | _ => None
      end
  | IndexedDB db =>
      head (List.filter (fun g => (Z.eqb (graphFolderId g) folderId')
                                  && String.eqb (graphUserId g) userId')
              (folderKnowledgeGraphs db))
  end.

(** The writes the service performs on its storage. *)
Inductive StoreOp :=
  | OpDocument (d : FolderDocument)
  | OpChunk (c : FolderChunk)
  | OpEmbedding (e : FolderEmbedding)
  | OpGraph (g : FolderKnowledgeGraph).

Definition applyOp (op : StoreOp) (s : Backend) : option Backend :=
  match op with
  | OpDocument d => storeDocument d s
  | OpChunk c => storeChunk c s
  | OpEmbedding e => storeEmbedding e s
  | OpGraph g => Some (storeKnowledgeGraph g s)
  end.

(** The states the service can reach: an empty memory store, or any
    IndexedDB database, followed by any sequence of successful writes. *)
Inductive reachable : Backend -> Prop :=
  | reach_memory : reachable (Memory ∅)
  | reach_idb db : reachable (IndexedDB db)
  | reach_op s op s' : reachable s -> applyOp op s = Some s' -> reachable s'.

End Store.

(** ** FolderRAGService.searchSimilarContent and buildContextForQuery

    [generateEmbedding] returns a random normalised vector; the query
    embedding is therefore a parameter of the model. [Array.prototype.sort]
    is stable, so the comparator [b.similarity - a.similarity] is modelled by
    an insertion sort that puts a new entry after the entries of equal
    similarity. *)
Module Search.
Import Model Store Similarity.
Local Open Scope string_scope.

Record ScoredId := mkScored { scChunkId : string; similarity : R }.

Fixpoint insertDesc (x : ScoredId) (l : list ScoredId) : list ScoredId :=
  match l with
  | [] => [x]
  | y :: l' =>
      if Rlt_dec (similarity y) (similarity x) then x :: l
      else y :: insertDesc x l'
  end.

Definition sortDesc (l : list ScoredId) : list ScoredId :=
  fold_left (fun acc x => insertDesc x acc) l [].

(** [arr.slice(0, end)]: a negative [end] counts from the end of [arr]. *)
Definition jsSlice0 {A} (l : list A) (e : Z) : list A :=
  if (e <? 0)%Z then take (Z.to_nat (Z.of_nat (length l) + e)) l
  else take (Z.to_nat e) l.

Definition searchSimilarContent (s : Backend) (queryEmbedding : list R)
    (folderId' : Z) (userId' : string) (limit : Z) : list (FolderChunk * R) :=
  let embeddings := getEmbeddings s folderId' userId' in
  let chunks := getChunks s folderId' userId' in
  let similarities :=
    map (fun e => mkScored (embId e) (cosineSimilarity queryEmbedding (vector e)))
      embeddings in
  let topResults := jsSlice0 (sortDesc similarities) limit in
  omap (fun r =>
          match List.find (fun c => String.eqb (chunkId c) (scChunkId r)) chunks with
          | Some c => Some (c, similarity r)
          | None => None
          end) topResults.

Definition nl : string := String (ascii_of_nat 10) EmptyString.

(** The loop of [buildContextForQuery]; the literal [0.7] is read as the
    real 7/10. *)
Fixpoint accumulate (maxTokens : Z) (rs : list (FolderChunk * R))
    (context : string) (totalTokens : Z) : string :=
  match rs with
  | [] => context
  | (chunk, sim) :: rs' =>
      let chunkTokens := tokenCount chunk in
      if (maxTokens <? totalTokens + chunkTokens)%Z then context
      else if Rlt_dec (7/10) sim then
        accumulate maxTokens rs'
          (context +:+ nl +:+ "--- " +:+ documentName chunk +:+ " ---" +:+ nl
             +:+ content chunk +:+ nl)
          (totalTokens + chunkTokens)
      else accumulate maxTokens rs' context totalTokens
  end.

Definition buildContextForQuery (s : Backend) (queryEmbedding : list R)
    (folderId' : Z) (userId' : string) (maxTokens : Z) : string :=
  let relevantChunks := searchSimilarContent s queryEmbedding folderId' userId' 10 in
  JS.trim (accumulate maxTokens relevantChunks "" 0).

End Search.

(** ** FolderContextManager: configuration and the RAG part of
    buildFolderContext *)
Module FolderContext.
Import Model Store Search.
Local Open Scope string_scope.

Record FolderContextConfig := mkFolderConfig {
  includeRAGData : bool;
  maxRAGTokens : Z;
  ragSimilarityThreshold : R;
  preserveConversationContext : bool;
  maxConversationTokens : Z
}.

Definition DEFAULT_FOLDER_CONFIG : FolderContextConfig :=
  mkFolderConfig true 2000 (7/10) true 4000.

(** [folderConfigs] is a [Map<number, FolderContextConfig>]. *)
Definition getFolderConfig (folderConfigs : gmap Z FolderContextConfig)
    (folderId' : Z) : FolderContextConfig :=
  match folderConfigs !! folderId' with
  | Some c => c
  | None => DEFAULT_FOLDER_CONFIG
  end.

Definition setFolderConfig (folderConfigs : gmap Z FolderContextConfig)
    (folderId' : Z) (config : FolderContextConfig) : gmap Z FolderContextConfig :=
  <[folderId' := config]> folderConfigs.

Definition buildRAGContext (s : Backend) (queryEmbedding : list R)
    (folderId' : Z) (userId' : string) (maxTokens : Z)
    (similarityThreshold : R) : string :=
  let ragContent := buildContextForQuery s queryEmbedding folderId' userId' maxTokens in
  if String.eqb ragContent "" then ""
  else nl +:+ "--- FOLDER CONTEXT (Folder ID: " +:+ pretty folderId' +:+ ") ---"
         +:+ nl +:+ ragContent +:+ nl +:+ "--- END FOLDER CONTEXT ---" +:+ nl.

(** The [ragContext] computed at the start of [buildFolderContext]. *)
Definition folderRAGContext (folderConfigs : gmap Z FolderContextConfig)
    (s : Backend) (queryEmbedding : list R) (folderId' : Z) (userId' : string)
    : string :=
  let config := getFolderConfig folderConfigs folderId' in
  if includeRAGData config then
    buildRAGContext s queryEmbedding folderId' userId' (maxRAGTokens config)
      (ragSimilarityThreshold config)
  else "".

End FolderContext.

(** ** FolderRAGService.updateKnowledgeGraph

    Node positions and timestamps (random numbers and the clock) are not
    modelled; nor are [metadata] fields other than [documentCount]. *)
Module Graph.
Import Model.
Local Open Scope string_scope.

(** [\w] is [[A-Za-z0-9_]]. *)
Definition isWordChar (c : ascii) : bool :=
  let n := nat_of_ascii c in
  (((65 <=? n) && (n <=? 90)) || ((97 <=? n) && (n <=? 122))
   || ((48 <=? n) && (n <=? 57)) || (n =? 95))%nat.

(** [toLowerCase] on ASCII letters. *)
Definition lowerChar (c : ascii) : ascii :=
  let n := nat_of_ascii c in
  if ((65 <=? n) && (n <=? 90))%nat then ascii_of_nat (n + 32) else c.

Fixpoint toLowerCase (s : string) : string :=
  match s with
  | EmptyString => EmptyString
  | String c s' => String (lowerChar c) (toLowerCase s')
  end.

(** [split(/\W+/)]: [cur] is the current piece, [inSep] whether the scan is
    inside a run of separators. *)
Fixpoint splitNonWordGo (s : string) (cur : string) (inSep : bool)
    : list string :=
  match s with
  | EmptyString => if inSep then [cur; ""] else [cur]
  | String c s' =>
      if isWordChar c then
        if inSep then cur :: splitNonWordGo s' (String c EmptyString) false
        else splitNonWordGo s' (cur +:+ String c EmptyString) false
      else splitNonWordGo s' cur true
  end.

Definition splitNonWord (s : string) : list string := splitNonWordGo s "" false.

Definition stopWords : list string :=
  ["the"; "and"; "this"; "that"; "with"; "have"; "will"; "from"; "they";
   "been"; "have"; "their"].

(** [[...new Set(xs)]]: first occurrences, in order. *)
Fixpoint dedupGo (seen : list string) (xs : list string) : list string :=
  match xs with
  | [] => []
  | x :: xs' =>
      if existsb (String.eqb x) seen then dedupGo seen xs'
      else x :: dedupGo (x :: seen) xs'
  end.

Definition extractConcepts (text : string) : list string :=
  let words := splitNonWord (toLowerCase text) in
  let concepts :=
    List.filter (fun w => (4 <? String.length w)%nat
                          && negb (existsb (String.eqb w) stopWords)) words in
  take 5 (dedupGo [] concepts).

Definition conceptNodeId (chunk : FolderChunk) (concept : string) : string :=
  chunkId chunk +:+ "-concept-" +:+ concept.

Definition conceptNodes (document : FolderDocument) (chunk : FolderChunk)
    : list KnowledgeNode :=
  map (fun concept =>
         mkNode (conceptNodeId chunk concept) "concept" concept concept
           [docId document] [chunkId chunk])
    (extractConcepts (content chunk)).

Definition conceptEdges (document : FolderDocument) (chunk : FolderChunk)
    : list KnowledgeEdge :=
  map (fun concept =>
         let nid := conceptNodeId chunk concept in
         mkEdge (docId document +:+ "-contains-" +:+ nid) (docId document) nid
           "contains" (8/10)%R)
    (extractConcepts (content chunk)).

Definition documentNode (document : FolderDocument) (chunks : list FolderChunk)
    : KnowledgeNode :=
  mkNode (docId document) "document" (docName document)
    (JS.substring0 (docContent document) 200 +:+ "...")
    [docId document] (map chunkId chunks).

Definition updateKnowledgeGraph (document : FolderDocument)
    (chunks : list FolderChunk) : FolderKnowledgeGraph :=
  mkGraph (pretty (docFolderId document) +:+ "-graph") (docFolderId document)
    (docUserId document)
    (documentNode document chunks :: flat_map (conceptNodes document) chunks)
    (flat_map (conceptEdges document) chunks)
    1.

End Graph.

(** ** Concrete inputs used by the examples below *)
Module Inputs.
Import Model.
Local Open Scope string_scope.

(** Sentence [i] of [overlapDoc]: 100 copies of one character, distinct
    for each [i] and never one of [.!?] or a space. *)
Definition sentence (i : nat) : string :=
  JS.rep 100 (ascii_of_nat (if (i + 48 <? 63)%nat then i + 48 else i + 49)).

(** 71 such sentences, each followed by a period. *)
Definition overlapDoc : FolderDocument :=
  mkDoc "doc-1" 1 "user-1" "notes.txt" "text"
    (fold_right (fun i acc => sentence i +:+ "." +:+ acc) "" (seq 0 71)).

(** 400 characters and a period. *)
Definition shortDoc : FolderDocument :=
  mkDoc "doc-2" 1 "user-1" "short.txt" "text" (JS.rep 400 "x" +:+ ".").

Definition chunkIds (n : nat) : string := "chunk-" +:+ pretty n.

End Inputs.

(** ** Concrete stores, folder configurations and documents *)
Module RAGInputs.
Import Model Store FolderContext.
Local Open Scope string_scope.

Definition chunkA : FolderChunk :=
  mkChunk "c1" "doc-1" 1 "user-1" "hello" 0 5 0 5 "a.txt" "text".
Definition chunkB : FolderChunk :=
  mkChunk "c2" "doc-1" 1 "user-1" "world" 6 11 1 5 "a.txt" "text".

Definition embA : FolderEmbedding :=
  mkEmb "c1" 1 "user-1" [4/5; 3/5]%R 2 "local-sentence-transformer".
Definition embB : FolderEmbedding :=
  mkEmb "c2" 1 "user-1" [4/5; 3/5]%R 2 "local-sentence-transformer".

(** A normalised query embedding. *)
Definition queryX : list R := [1; 0]%R.

(** One chunk and its embedding in folder 1 of [user-1]. *)
Definition ragStore : Backend := IndexedDB (mkIDB [] [chunkA] [embA] []).

(** Two chunks of equal similarity in folder 1 of [user-1]. *)
Definition twoStore : Backend :=
  IndexedDB (mkIDB [] [chunkA; chunkB] [embA; embB] []).

(** The in-memory store after [storeChunk chunkA] and [storeEmbedding embA]. *)
Definition memStore : Backend :=
  match storeChunk chunkA (Memory ∅) with
  | Some s => match storeEmbedding embA s with Some s' => s' | None => s end
  | None => Memory ∅
  end.

(** Folder 1 configured with a similarity threshold of 0.9. *)
Definition strictConfig : FolderContextConfig :=
  mkFolderConfig true 2000 (9/10)%R true 4000.
Definition strictConfigs : gmap Z FolderContextConfig :=
  setFolderConfig ∅ 1 strictConfig.

Definition docA : FolderDocument :=
  mkDoc "doc-a" 1 "user-1" "a.txt" "text" "alpha notes".
Definition docB : FolderDocument :=
  mkDoc "doc-b" 1 "user-1" "b.txt" "text" "bravo notes".

End RAGInputs.

(** ** src/lib/context-manager.ts: buildSystemPrompt *)
Module SystemPrompt.
Import Search.
Local Open Scope string_scope.

(** The optional [projectContext] argument; an absent field is [None]. *)
Record ProjectContext := mkProject {
  files : option (list string);
  description : option string;
  tech_stack : option (list string)
}.

(** [arr.join(", ")] *)
Fixpoint joinComma (l : list string) : string :=
  match l with
  | [] => ""
  | [x] => x
  | x :: l' => x +:+ ", " +:+ joinComma l'
  end.

Definition buildSystemPrompt (basePrompt : string)
    (projectContext : option ProjectContext) : string :=
  match projectContext with
  | None => basePrompt
  | Some pc =>
      let prompt := basePrompt +:+ nl +:+ nl +:+ "## Project Context" +:+ nl in
      let prompt :=
        match description pc with
        | Some d =>
            if String.eqb d "" then prompt
            else prompt +:+ "Project Description: " +:+ d +:+ nl
        | None => prompt
        end in
      let prompt :=
        match tech_stack pc with
        | Some ts =>
            if (length ts =? 0)%nat then prompt
            else prompt +:+ "Tech Stack: " +:+ joinComma ts +:+ nl
        | None => prompt
        end in
      match files pc with
      | Some fs =>
          if (length fs =? 0)%nat then prompt
          else
            let prompt := prompt +:+ "Relevant Files: " +:+ joinComma (take 10 fs) in
            if (10 <? length fs)%nat
            then prompt +:+ " (and " +:+ pretty (length fs - 10)%nat +:+ " more)"
            else prompt
      | None => prompt
      end
  end.

End SystemPrompt.

(** ** src/lib/folder-context-manager.ts: configuration, limits, prompt and
    buildFolderContext *)
Module FolderManager.
Import ContextManager Model Store Search FolderContext.
Local Open Scope string_scope.

(** [Partial<FolderContextConfig>]: an absent field is [None]. *)
Record PartialFolderContextConfig := mkPFolderConfig {
  pIncludeRAGData : option bool;
  pMaxRAGTokens : option Z;
  pRagSimilarityThreshold : option R;
  pPreserveConversationContext : option bool;
  pMaxConversationTokens : option Z
}.

(** [{ ...currentConfig, ...config }] *)
Definition mergeFolderConfig (cur : FolderContextConfig)
    (config : PartialFolderContextConfig) : FolderContextConfig :=
  mkFolderConfig (default (includeRAGData cur) (pIncludeRAGData config))
    (default (maxRAGTokens cur) (pMaxRAGTokens config))
    (default (ragSimilarityThreshold cur) (pRagSimilarityThreshold config))
    (default (preserveConversationContext cur) (pPreserveConversationContext config))
    (default (maxConversationTokens cur) (pMaxConversationTokens config)).

Definition setFolderConfig (folderConfigs : gmap Z FolderContextConfig)
    (folderId' : Z) (config : PartialFolderContextConfig)
    : gmap Z FolderContextConfig :=
  let currentConfig := getFolderConfig folderConfigs folderId' in
  <[folderId' := mergeFolderConfig currentConfig config]> folderConfigs.

Definition clearFolderContext (folderConfigs : gmap Z FolderContextConfig)
    (folderId' : Z) : gmap Z FolderContextConfig :=
  delete folderId' folderConfigs.

(** [applyFolderLimits]; [baseLimits.reserveTokens || 0] is 0 for an
    absent field. *)
Definition applyFolderLimits (baseLimits : PartialTokenLimits)
    (config : FolderContextConfig) : PartialTokenLimits :=
  mkPLimits (pMaxTokens baseLimits) (pMaxMessages baseLimits)
    (Some (default 0 (pReserveTokens baseLimits)
           + (if includeRAGData config then maxRAGTokens config else 0))%Z).

Definition buildFolderSystemPrompt (basePrompt : string) (folderId' : Z)
    (ragContext : string) : string :=
  let prompt := basePrompt in
  let prompt := prompt +:+ nl +:+ nl +:+ "## FOLDER CONTEXT ISOLATION" +:+ nl in
  let prompt := prompt +:+ "You are working within a specific folder context (ID: "
                +:+ pretty folderId' +:+ "). " in
  let prompt := prompt +:+ "IMPORTANT: Only use information from the provided folder context below. " in
  let prompt := prompt +:+ "Do not reference or contaminate this conversation with information from other folders or external sources." in
  let prompt :=
    if negb (String.eqb (JS.trim ragContext) "") then
      let prompt := prompt +:+ nl +:+ nl +:+ "## AVAILABLE FOLDER RESOURCES" +:+ nl in
      let prompt := prompt +:+ "The following resources are available in this folder for reference:" in
      let prompt := prompt +:+ ragContext in
      let prompt := prompt +:+ nl +:+ nl +:+ "When answering questions, prioritize information from these folder resources. " in
      let prompt := prompt +:+ "If the answer isn't in the provided resources, clearly state that the information " in
      prompt +:+ "is not available in the current folder context."
    else
      let prompt := prompt +:+ nl +:+ nl +:+ "No specific resources are available in this folder context. " in
      prompt +:+ "Provide general assistance while noting that no folder-specific resources are loaded." in
  let prompt := prompt +:+ nl +:+ nl +:+ "## STRICT ISOLATION REQUIREMENT" +:+ nl in
  let prompt := prompt +:+ "Maintain complete separation between this folder's context and any other conversations. " in
  prompt +:+ "Each folder is an independent knowledge space with no cross-contamination.".

(** [buildFolderContext]; [userQuery] only feeds the random query
    embedding, which is the parameter [queryEmbedding]. *)
Definition buildFolderContext (folderConfigs : gmap Z FolderContextConfig)
    (s : Backend) (queryEmbedding : list R) (folderId' : Z) (userId' : string)
    (msgs : list OpenRouterMessage) (baseSystemPrompt : string)
    (limits : PartialTokenLimits) : MessageContext :=
  let config := getFolderConfig folderConfigs folderId' in
  let ragContext :=
    if includeRAGData config then
      buildRAGContext s queryEmbedding folderId' userId' (maxRAGTokens config)
        (ragSimilarityThreshold config)
    else "" in
  let enhancedSystemPrompt := buildFolderSystemPrompt baseSystemPrompt folderId' ragContext in
  let folderLimits := applyFolderLimits limits config in
  buildContext msgs enhancedSystemPrompt folderLimits.

End FolderManager.

(** ** FolderRAGService: document intake, processing and folder cleanup *)
Module Ingest.
Import Model Store Chunker Graph.
Local Open Scope string_scope.

(** [s.split(c)] for a one-character separator: every occurrence splits. *)
Fixpoint splitCharGo (sep : ascii) (s : string) (cur : string) : list string :=
  match s with
  | EmptyString => [cur]
  | String c s' =>
      if ascii_dec c sep then cur :: splitCharGo sep s' ""
      else splitCharGo sep s' (cur +:+ String c "")
  end.

Definition splitChar (sep : ascii) (s : string) : list string :=
  splitCharGo sep s "".

(** [getDocumentType]: [fileName.toLowerCase().split('.').pop()] and the
    switch on it. *)
Definition getDocumentType (fileName : string) (content : string) : string :=
  let extension := default "" (last (splitChar "." (toLowerCase fileName))) in
  if existsb (String.eqb extension) ["pdf"] then "pdf"
  else if existsb (String.eqb extension) ["md"; "markdown"] then "md"
  else if existsb (String.eqb extension)
            ["js"; "ts"; "jsx"; "tsx"; "py"; "java"; "cpp"; "c"] then "code"
  else if existsb (String.eqb extension) ["json"] then "json"
  else "text".

Definition getDocuments (s : Backend) (folderId' : Z) (userId' : string)
    : list FolderDocument :=
  match s with
  | Memory m => memDocs m (docsKey folderId' userId')
  | IndexedDB db =>
      List.filter (fun d => (Z.eqb (docFolderId d) folderId')
                            && String.eqb (docUserId d) userId')
        (folderDocuments db)
  end.

(** The [{ name, content, type }] form of [addDocument]'s [file] argument. *)
Record TextFile := mkTextFile { fileName : string; fileContent : string; fileType : string }.

(** [addDocument] with a [TextFile]; [newUuid] is [crypto.randomUUID()].
    The document is stored, then [processDocumentAsync] runs without being
    awaited. *)
Definition addDocument (newUuid : string) (folderId' : Z) (userId' : string)
    (file : TextFile) (s : Backend) : option (FolderDocument * Backend) :=
  let content := fileContent file in
  let document :=
    mkDoc newUuid folderId' userId' (fileName file)
      (getDocumentType (fileName file) content) content in
  s' ← storeDocument document s;
  Some (document, s').

(** The [for (const chunk of chunks) await this.storeChunk(chunk)] loop: the
    first failure ends it, keeping what was stored before. *)
Fixpoint storeChunks (chunks : list FolderChunk) (s : Backend) : Backend * bool :=
  match chunks with
  | [] => (s, true)
  | c :: cs =>
      match storeChunk c s with
      | Some s' => storeChunks cs s'
      | None => (s, false)
      end
  end.

Definition embeddingOf (chunk : FolderChunk) (v : list R) : FolderEmbedding :=
  mkEmb (chunkId chunk) (folderId chunk) (userId chunk) v (length v)
    "local-sentence-transformer".

(** [generateEmbeddingsForChunks]; [embed] stands for the random
    [generateEmbedding]. A failed store is caught and skipped. *)
Fixpoint generateEmbeddingsForChunks (embed : FolderChunk -> list R)
    (chunks : list FolderChunk) (s : Backend) : Backend :=
  match chunks with
  | [] => s
  | c :: cs =>
      let s' := match storeEmbedding (embeddingOf c (embed c)) s with
                | Some s' => s'
                | None => s
                end in
      generateEmbeddingsForChunks embed cs s'
  end.

(** [processDocumentAsync]: a failure while storing chunks is caught by its
    [try]/[catch] and ends the processing. *)
Definition processDocumentAsync (newId : nat -> string)
    (embed : FolderChunk -> list R) (document : FolderDocument) (s : Backend)
    : Backend :=
  let chunks := chunkDocument newId document in
  let '(s1, ok) := storeChunks chunks s in
  if ok then
    storeKnowledgeGraph (updateKnowledgeGraph document chunks)
      (generateEmbeddingsForChunks embed chunks s1)
  else s1.

(** The memory branch of [cleanupFolder]. *)
Definition cleanupFolderMemory (m : gmap string MVal) (folderId' : Z)
    (userId' : string) : gmap string MVal :=
  fold_left (fun acc k => delete k acc)
    [docsKey folderId' userId'; chunksKey folderId' userId';
     embeddingsKey folderId' userId'; graphKey folderId' userId'] m.

End Ingest.

(** ** FolderRAGService.deleteDocument and the IndexedDB branch of cleanupFolder *)
Module Cleanup.
Import Model Store Ingest.

(** [db.delete(store, key)]: the records whose key is [k] are removed. *)
Definition idbDelete {A} (key : A -> string) (k : string) (l : list A) : list A :=
  List.filter (fun y => negb (String.eqb (key y) k)) l.

(** [deleteDocument] on IndexedDB: [removeDocument], [removeChunksByDocument]
    and [removeEmbeddingsByDocument] run under [Promise.all]. The two reads
    of the [by-document] index of [folderChunks] are issued before any of
    the chunk deletes, so both read the chunks of the initial state. *)
Definition deleteDocumentIDB (documentId' : string) (db : IDBState) : IDBState :=
  let chunks := List.filter (fun c => String.eqb (documentId c) documentId')
                  (folderChunks db) in
  mkIDB (idbDelete docId documentId' (folderDocuments db))
    (fold_left (fun l c => idbDelete chunkId (chunkId c) l) chunks (folderChunks db))
    (fold_left (fun l c => idbDelete embId (chunkId c) l) chunks (folderEmbeddings db))
    (folderKnowledgeGraphs db).

(** In memory mode the three removals return at once. *)
Definition deleteDocument (documentId' : string) (s : Backend) : Backend :=
  match s with
  | Memory m => Memory m
  | IndexedDB db => IndexedDB (deleteDocumentIDB documentId' db)
  end.

(** [cleanupFolder]: in memory the four keys of the scope are deleted; on
    IndexedDB each document of the scope is deleted with [deleteDocument],
    then every graph of the scope is deleted by its id. *)
Definition cleanupFolder (folderId' : Z) (userId' : string) (s : Backend) : Backend :=
  match s with
  | Memory m => Memory (cleanupFolderMemory m folderId' userId')
  | IndexedDB db =>
      let documents := getDocuments (IndexedDB db) folderId' userId' in
      let db1 := fold_left (fun db d => deleteDocumentIDB (docId d) db) documents db in
      let graphs :=
        List.filter (fun g => (Z.eqb (graphFolderId g) folderId')
                              && String.eqb (graphUserId g) userId')
          (folderKnowledgeGraphs db1) in
      IndexedDB (mkIDB (folderDocuments db1) (folderChunks db1) (folderEmbeddings db1)
                   (fold_left (fun l g => idbDelete graphId (graphId g) l) graphs
                      (folderKnowledgeGraphs db1)))
  end.

End Cleanup.

(** ** getModelLimits and validateContext of [src/lib/context-manager.ts] *)
Module ModelLimits.
Import ContextManager.
Local Open Scope string_scope.

(** The [modelLimits] record of [getModelLimits]. *)
Definition modelLimitsTable : list (string * PartialTokenLimits) :=
  [("gpt-4o", mkPLimits (Some 120000%Z) None (Some 4000%Z));
   ("gpt-4o-mini", mkPLimits (Some 120000%Z) None (Some 1500%Z));
   ("gpt-4", mkPLimits (Some 8000%Z) None (Some 2000%Z));
   ("gpt-3.5-turbo", mkPLimits (Some 4000%Z) None (Some 1000%Z));
   ("claude-3-sonnet", mkPLimits (Some 200000%Z) None (Some 4000%Z));
   ("claude-3-haiku", mkPLimits (Some 200000%Z) None (Some 2000%Z));
   ("llama-2-70b", mkPLimits (Some 4000%Z) None (Some 1000%Z))].

(** [{ ...DEFAULT_LIMITS, ...modelLimits[model] }]; an unknown model
    spreads nothing. *)
Definition getModelLimits (model : string) : TokenLimits :=
  finalLimits
    (match List.find (fun p => String.eqb (fst p) model) modelLimitsTable with
     | Some (_, l) => l
     | None => mkPLimits None None None
     end).

(** A [TokenLimits] passed where [Partial<TokenLimits>] is expected. *)
Definition asPartial (l : TokenLimits) : PartialTokenLimits :=
  mkPLimits (Some (maxTokens l)) (Some (maxMessages l)) (Some (reserveTokens l)).

Record ValidationResult := mkValidation { valid : bool; reason : option string }.

Definition validateContext (context : MessageContext) (model : string)
    : ValidationResult :=
  let limits := getModelLimits model in
  if (maxTokens limits <? totalTokens context)%Z then
    mkValidation false
      (Some ("Context too long: " +:+ pretty (totalTokens context)
             +:+ " tokens exceeds " +:+ pretty (maxTokens limits) +:+ " limit"))
  else if (maxMessages limits <? Z.of_nat (length (messages context)))%Z then
    mkValidation false
      (Some ("Too many messages: " +:+ pretty (Z.of_nat (length (messages context)))
             +:+ " exceeds " +:+ pretty (maxMessages limits) +:+ " limit"))
  else mkValidation true None.

End ModelLimits.

(** * Proofs *)

(** ** Context assembly *)
Module ContextManagerFacts.
Import ContextManager.

Lemma estimateTokens_nonneg (t : string) : (0 <= estimateTokens t)%Z.
Proof. unfold estimateTokens, JS.len. apply Z.div_pos; lia. Qed.

(** [pairWalk] only prepends to the selection. *)
Lemma pairWalk_prefix fl avail rest sel used tr :
  exists pre, (pairWalk fl avail rest sel used tr).1.1 = pre ++ sel.
Proof.
  revert rest sel used tr.
  fix IH 1. intros rest sel used tr.
  destruct rest as [|a [|u rest']]; simpl.
  - exists []. reflexivity.
  - exists []. reflexivity.
  - destruct (_ && _).
    + edestruct (IH rest' (u :: a :: sel)) as [pre Hpre].
      rewrite Hpre. exists (pre ++ [u; a]). rewrite <- app_assoc. reflexivity.
    + exists []. reflexivity.
Qed.

(** Once set, the truncated flag stays set. *)
Lemma pairWalk_truncated fl avail rest sel used :
  (pairWalk fl avail rest sel used true).2 = true.
Proof.
  revert rest sel used.
  fix IH 1. intros rest sel used.
  destruct rest as [|a [|u rest']]; simpl; try reflexivity.
  destruct (_ && _); [apply IH | reflexivity].
Qed.

(** Tokens used after the walk: unchanged, or within the budget. *)
Lemma pairWalk_used fl avail rest sel used tr :
  (pairWalk fl avail rest sel used tr).1.2 = used \/
  ((pairWalk fl avail rest sel used tr).1.2 <= avail)%Z.
Proof.
  revert rest sel used tr.
  fix IH 1. intros rest sel used tr.
  destruct rest as [|a [|u rest']]; simpl; try (left; reflexivity).
  set (pt := (estimateMessageTokens a + estimateMessageTokens u)%Z).
  destruct (used + pt <=? avail)%Z eqn:E1;
  destruct (Z.of_nat (length sel) + 2 <=? maxMessages fl)%Z eqn:E2;
  simpl; try (left; reflexivity).
  right. apply Z.leb_le in E1.
  destruct (IH rest' (u :: a :: sel) (used + pt)%Z tr) as [H|H]; lia.
Qed.

(** Started from an empty selection, the walk selects the [2 * j] last
    elements of the history it is given (newest first), in chronological
    order. *)
Lemma pairWalk_suffix fl avail rest used tr :
  exists k, (pairWalk fl avail rest [] used tr).1.1 = rev (take k rest).
Proof.
  assert (G : forall rest sel used tr, exists k,
    (pairWalk fl avail rest sel used tr).1.1 = rev (take k rest) ++ sel).
  { fix IH 1. intros r sel u0 t0.
    destruct r as [|a [|u r']]; simpl.
    - exists 0. reflexivity.
    - exists 0. reflexivity.
    - destruct (_ && _).
      + edestruct (IH r' (u :: a :: sel)) as [k Hk].
        rewrite Hk. exists (S (S k)). simpl.
        rewrite <- !app_assoc. reflexivity.
      + exists 0. reflexivity. }
  destruct (G rest [] used tr) as [k Hk]. exists k. rewrite Hk, app_nil_r.
  reflexivity.
Qed.

(** [buildContext] on a history whose latest message is [m]. *)
Lemma buildContext_snoc (h : list OpenRouterMessage) m sp pl :
  buildContext (h ++ [m]) sp pl =
  (let fl := finalLimits pl in
   let avail := availableTokens sp fl in
   let '(s0, u0, t0) := latestStep avail m in
   let '(sel, used, tr) := pairWalk fl avail (rev h) s0 u0 t0 in
   mkCtx (systemMessage sp :: sel)
     (estimateMessageTokens (systemMessage sp) + used) tr).
Proof. unfold buildContext. rewrite rev_unit. destruct h; reflexivity. Qed.

Lemma latestStep_not_user avail m :
  role m <> RUser -> latestStep avail m = ([], 0%Z, false).
Proof. unfold latestStep. destruct (role m); simpl; congruence. Qed.

(** The output ends with the message the walk started from. *)
Lemma last_after_walk fl avail rest x used tr sp :
  last (systemMessage sp :: (pairWalk fl avail rest [x] used tr).1.1) = Some x.
Proof.
  destruct (pairWalk_prefix fl avail rest [x] used tr) as [pre ->].
  rewrite app_comm_cons. apply last_snoc.
Qed.

(** A forced latest message is longer than the character budget, so
    [truncateText] always cuts it. *)
Lemma forced_exceeds_budget (u : OpenRouterMessage) avail :
  (avail < estimateMessageTokens u)%Z ->
  ((avail - 10) * 4 < JS.len (content u))%Z.
Proof.
  unfold estimateMessageTokens, estimateTokens. intros H.
  pose proof (Z.mul_div_le (JS.len (content u) + 3) 4 ltac:(lia)). lia.
Qed.

(** ** C4 *)
(** Claim C4 (amended): when the most recent message has role user it is
    always the last message of the output. When it alone exceeds
    [availableTokens], it is replaced by its content cut to the first
    [4 * (availableTokens - 10)] characters, further cut at the last space of
    that prefix when that space lies beyond 80% of the budget, followed by
    "...", and the truncated flag is set. *)
Theorem buildContext_latest_user (h : list OpenRouterMessage)
    (u : OpenRouterMessage) (sp : string) (pl : PartialTokenLimits)
    (Hu : role u = RUser) :
  let r := buildContext (h ++ [u]) sp pl in
  let avail := availableTokens sp (finalLimits pl) in
  ((estimateMessageTokens u <= avail)%Z -> last (messages r) = Some u) /\
  ((avail < estimateMessageTokens u)%Z ->
     truncated r = true /\
     last (messages r) = Some (mkMsg RUser
       (let maxChars := ((avail - 10) * 4)%Z in
        let t := JS.substring0 (content u) maxChars in
        let p := JS.lastIndexOf " "%char t in
        ((if (4 * maxChars <? 5 * p)%Z then JS.substring0 t p else t)
         +:+ "...")%string))).
Proof.
  intros r avail. subst r. rewrite buildContext_snoc. cbv zeta.
  fold avail.
  unfold latestStep. rewrite Hu. simpl Role_eqb. cbv iota.
  split.
  - intros Hle. apply Z.leb_le in Hle. rewrite Hle.
    destruct (pairWalk _ _ _ _ _ _) as [[sel used] tr] eqn:W. simpl.
    pose proof (last_after_walk (finalLimits pl) avail (rev h) u
                  (estimateMessageTokens u) false sp) as L.
    rewrite W in L. exact L.
  - intros Hlt.
    assert (Hnle : (estimateMessageTokens u <=? avail)%Z = false)
      by (apply Z.leb_gt; exact Hlt).
    rewrite Hnle.
    pose proof (forced_exceeds_budget u avail Hlt) as Hb.
    set (x := mkMsg RUser (truncateText (content u) (avail - 10))).
    pose proof (last_after_walk (finalLimits pl) avail (rev h) x
       (estimateTokens (truncateText (content u) (avail - 10)) + 10)%Z true sp)
      as L.
    pose proof (pairWalk_truncated (finalLimits pl) avail (rev h) [x]
       (estimateTokens (truncateText (content u) (avail - 10)) + 10)%Z) as T.
    destruct (pairWalk _ _ _ _ _ _) as [[sel used] tr] eqn:W. simpl in *.
    split; [exact T|].
    rewrite L. subst x. f_equal. f_equal.
    unfold truncateText.
    assert (Hn : (JS.len (content u) <=? (avail - 10) * 4)%Z = false)
      by (apply Z.leb_gt; exact Hb).
    rewrite Hn. cbv zeta. destruct (_ <? _)%Z; reflexivity.
Qed.

(** Counterexample to C4 as stated: the cut is not at the last word
    boundary before 80% of the budget. With [availableTokens = 20] the
    budget is 40 characters; the only space, at index 1, lies before
    32 = 80% of it, yet the content is hard-cut at 40 characters. *)
Lemma buildContext_latest_user_cex :
  let c := ("a " +:+ JS.rep 58 "b")%string in
  let pl := mkPLimits (Some 40%Z) None (Some 10%Z) in
  let r := buildContext [mkMsg RUser c] "" pl in
  availableTokens "" (finalLimits pl) = 20%Z /\
  (20 < estimateMessageTokens (mkMsg RUser c))%Z /\
  JS.lastIndexOf " "%char (JS.substring0 c 32) = 1%Z /\
  last (messages r) <> Some (mkMsg RUser (JS.substring0 c 1 +:+ "...")) /\
  last (messages r) = Some (mkMsg RUser (JS.substring0 c 40 +:+ "...")).
Proof.
  vm_compute. split; [reflexivity|]. split; [reflexivity|].
  split; [reflexivity|]. split; [discriminate|reflexivity].
Qed.

Lemma buildContext_latest_user_witness :
  role (mkMsg RUser "x") = RUser /\
  (let r := buildContext ([] ++ [mkMsg RUser "x"]) "" (mkPLimits None None None) in
   let avail := availableTokens "" (finalLimits (mkPLimits None None None)) in
   ((estimateMessageTokens (mkMsg RUser "x") <= avail)%Z ->
      last (messages r) = Some (mkMsg RUser "x")) /\
   ((avail < estimateMessageTokens (mkMsg RUser "x"))%Z ->
     truncated r = true /\
     last (messages r) = Some (mkMsg RUser
       (let maxChars := ((avail - 10) * 4)%Z in
        let t := JS.substring0 (content (mkMsg RUser "x")) maxChars in
        let p := JS.lastIndexOf " "%char t in
        ((if (4 * maxChars <? 5 * p)%Z then JS.substring0 t p else t)
         +:+ "...")%string)))).
Proof.
  split; [reflexivity|].
  exact (buildContext_latest_user [] (mkMsg RUser "x") "" (mkPLimits None None None)
           eq_refl).
Defined.

(** ** C5 *)
(** Claim C5 (amended, token part): [totalTokens] exceeds
    [maxTokens - reserveTokens] only when the most recent message is a user
    message whose estimate alone exceeds [availableTokens] (it is then forced
    in, truncated), or when the system message alone already exceeds
    [maxTokens - reserveTokens] ([availableTokens < 0]). *)
Theorem buildContext_token_bound (h : list OpenRouterMessage) (sp : string)
    (pl : PartialTokenLimits) :
  (maxTokens (finalLimits pl) - reserveTokens (finalLimits pl)
     < totalTokens (buildContext h sp pl))%Z ->
  (exists h' u, h = h' ++ [u] /\ role u = RUser /\
     (availableTokens sp (finalLimits pl) < estimateMessageTokens u)%Z) \/
  (availableTokens sp (finalLimits pl) < 0)%Z.
Proof.
  destruct h as [|m h] using rev_ind.
  - intros H. right. unfold availableTokens.
    change (totalTokens (buildContext [] sp pl))
      with (estimateMessageTokens (systemMessage sp)) in H.
    lia.
  - rewrite buildContext_snoc. cbv zeta.
    set (avail := availableTokens sp (finalLimits pl)).
    assert (Ha : avail = (maxTokens (finalLimits pl) - reserveTokens (finalLimits pl)
                  - estimateMessageTokens (systemMessage sp))%Z) by reflexivity.
    destruct (Role_eqb (role m) RUser) eqn:R.
    + assert (Hr : role m = RUser) by (destruct (role m); simpl in R; congruence).
      destruct (Z_lt_le_dec avail (estimateMessageTokens m)) as [Hlt|Hle].
      * intros _. left. exists h, m. auto.
      * unfold latestStep. rewrite R.
        assert (E : (estimateMessageTokens m <=? avail)%Z = true)
          by (apply Z.leb_le; exact Hle).
        rewrite E.
        pose proof (pairWalk_used (finalLimits pl) avail (rev h) [m]
                      (estimateMessageTokens m) false) as U.
        destruct (pairWalk _ _ _ _ _ _) as [[sel used] tr]. simpl in *.
        intros H. exfalso. destruct U; lia.
    + assert (Hr : role m <> RUser) by (intros E; rewrite E in R; discriminate).
      rewrite (latestStep_not_user avail m Hr).
      pose proof (pairWalk_used (finalLimits pl) avail (rev h) [] 0%Z false) as U.
      destruct (pairWalk _ _ _ _ _ _) as [[sel used] tr]. simpl in *.
      intros H. right. destruct U; lia.
Qed.

Lemma buildContext_token_bound_witness :
  let pl := mkPLimits (Some 40%Z) None (Some 10%Z) in
  let h := [mkMsg RUser ("a " +:+ JS.rep 58 "b")%string] in
  (maxTokens (finalLimits pl) - reserveTokens (finalLimits pl)
     < totalTokens (buildContext h "" pl))%Z /\
  ((exists h' u, h = h' ++ [u] /\ role u = RUser /\
     (availableTokens "" (finalLimits pl) < estimateMessageTokens u)%Z) \/
   (availableTokens "" (finalLimits pl) < 0)%Z).
Proof.
  intros pl h.
  assert (H : (maxTokens (finalLimits pl) - reserveTokens (finalLimits pl)
                < totalTokens (buildContext h "" pl))%Z)
    by (vm_compute; reflexivity).
  split; [exact H|].
  exact (buildContext_token_bound h "" pl H).
Defined.

(** Counterexample to C5 as stated. (a) With [maxMessages = 3] and a
    three-message history the output has four messages: the pair check
    [selectedMessages.length + 2 <= maxMessages] does not count the system
    message. (b) A 400-character system prompt with [maxTokens = 100] and
    [reserveTokens = 0] gives [totalTokens = 110 > 100] although the latest
    message is an assistant message, so nothing is forced in. *)
Lemma buildContext_bounds_cex :
  let h1 := [mkMsg RUser "q"; mkMsg RAssistant "a"; mkMsg RUser "u"] in
  let pl1 := mkPLimits None (Some 3%Z) None in
  let sp2 := JS.rep 400 "s" in
  let pl2 := mkPLimits (Some 100%Z) None (Some 0%Z) in
  let h2 := [mkMsg RAssistant "hi"] in
  (maxMessages (finalLimits pl1)
     < Z.of_nat (length (messages (buildContext h1 "" pl1))))%Z /\
  (maxTokens (finalLimits pl2) - reserveTokens (finalLimits pl2)
     < totalTokens (buildContext h2 sp2 pl2))%Z.
Proof. vm_compute. split; reflexivity. Qed.

(** ** C10 *)
(** Claim C10: when the most recent message has role assistant it is never
    in the output: the output is the system message followed by a suffix of
    the earlier history, the result does not depend on that message at all
    (so it does not by itself set the truncated flag), and a history made of
    that message alone gives [truncated = false]. *)
Theorem buildContext_latest_assistant (h : list OpenRouterMessage)
    (a a' : OpenRouterMessage) (sp : string) (pl : PartialTokenLimits)
    (Ha : role a = RAssistant) (Ha' : role a' = RAssistant) :
  buildContext (h ++ [a]) sp pl = buildContext (h ++ [a']) sp pl /\
  (exists n, messages (buildContext (h ++ [a]) sp pl)
             = systemMessage sp :: drop n h) /\
  truncated (buildContext [a] sp pl) = false.
Proof.
  assert (Na : role a <> RUser) by (rewrite Ha; discriminate).
  assert (Na' : role a' <> RUser) by (rewrite Ha'; discriminate).
  split; [|split].
  - rewrite !buildContext_snoc. cbv zeta.
    rewrite (latestStep_not_user _ a Na), (latestStep_not_user _ a' Na').
    reflexivity.
  - rewrite buildContext_snoc. cbv zeta.
    rewrite (latestStep_not_user _ a Na).
    destruct (pairWalk_suffix (finalLimits pl) (availableTokens sp (finalLimits pl))
                (rev h) 0%Z false) as [k Hk].
    destruct (pairWalk _ _ _ _ _ _) as [[sel used] tr]. simpl in *.
    exists (length h - k). rewrite Hk, firstn_rev, rev_involutive.
    reflexivity.
  - change [a] with ([] ++ [a]). rewrite buildContext_snoc. cbv zeta.
    rewrite (latestStep_not_user _ a Na). reflexivity.
Qed.

Lemma buildContext_latest_assistant_witness :
  role (mkMsg RAssistant "a") = RAssistant /\
  role (mkMsg RAssistant "b") = RAssistant /\
  (buildContext ([mkMsg RUser "q"] ++ [mkMsg RAssistant "a"]) "" (mkPLimits None None None)
   = buildContext ([mkMsg RUser "q"] ++ [mkMsg RAssistant "b"]) "" (mkPLimits None None None) /\
   (exists n, messages (buildContext ([mkMsg RUser "q"] ++ [mkMsg RAssistant "a"]) ""
                          (mkPLimits None None None))
              = systemMessage "" :: drop n [mkMsg RUser "q"]) /\
   truncated (buildContext [mkMsg RAssistant "a"] "" (mkPLimits None None None)) = false).
Proof.
  split; [reflexivity|]. split; [reflexivity|].
  exact (buildContext_latest_assistant [mkMsg RUser "q"] (mkMsg RAssistant "a")
           (mkMsg RAssistant "b") "" (mkPLimits None None None) eq_refl eq_refl).
Defined.

End ContextManagerFacts.


(** ** Chunking *)
Module ChunkerFacts.
Import Model Chunker.

Lemma str_app_assoc (a b c : string) : (a +:+ b) +:+ c = a +:+ (b +:+ c).
Proof.
  induction a as [|ch a IH]; [reflexivity|]. exact (f_equal (String ch) IH).
Qed.

Lemma str_app_space_ne (a b : string) : a +:+ String " " b <> "".
Proof. destruct a; simpl; discriminate. Qed.

Lemma joinSp_snoc (l : list string) (x : string) :
  l <> [] -> joinSp (l ++ [x]) = joinSp l +:+ " " +:+ x.
Proof.
  intros Hl. induction l as [|a l IH]; [congruence|].
  destruct l as [|b l].
  - reflexivity.
  - change (joinSp ((a :: b :: l) ++ [x]))
      with (a +:+ " " +:+ joinSp ((b :: l) ++ [x])).
    rewrite IH by discriminate.
    change (joinSp (a :: b :: l)) with (a +:+ " " +:+ joinSp (b :: l)).
    rewrite !str_app_assoc. reflexivity.
Qed.

Lemma joinSp_ne (l : list string) :
  Forall (fun x => x <> "") l -> l <> [] -> joinSp l <> "".
Proof.
  intros Hf Hl. destruct l as [|a l]; [congruence|].
  inversion Hf as [|? ? Ha _]; subst.
  destruct l as [|b l]; [exact Ha|].
  simpl. destruct a; [congruence|discriminate].
Qed.

Lemma sentences_ne (t : string) :
  Forall (fun x => x <> "") (splitIntoSentences t).
Proof.
  unfold splitIntoSentences. apply List.Forall_forall.
  intros x Hx. apply filter_In in Hx as [_ Hx].
  intros ->. discriminate.
Qed.

Lemma runBuffers_snoc seed b (rs : list (list string)) r :
  runBuffers seed b (rs ++ [r]) =
  runBuffers seed b rs
  ++ [seededBuffer (if b then seedOf seed rs else Some seed) r].
Proof.
  revert b. induction rs as [|r0 rs IH]; intros b; simpl.
  - reflexivity.
  - rewrite IH. destruct b; reflexivity.
Qed.

Lemma eqb_false_ne (a : string) : String.eqb a "" = false <-> a <> "".
Proof. apply String.eqb_neq. Qed.

(** Loop invariant of [chunkLoop]: the sentences consumed so far are cut
    into the runs of the emitted chunks and the pending run of the current
    buffer; each buffer is the join of its run, seeded with the overlap text
    from the second buffer on. *)
Lemma chunkLoop_runs newId document (sentences rest : list string)
    cur idx start acc (runs : list (list string)) (pending : list string)
    cur' idx' start' acc' :
  let seed := joinSp (sliceFrom sentences (- cOverlap CHUNK_CONFIG)) in
  Forall (fun x => x <> "") rest ->
  Forall (fun x => x <> "") pending ->
  (runs <> [] -> pending <> []) ->
  map content acc = map trim (runBuffers seed true runs) ->
  cur = seededBuffer (seedOf seed runs) pending ->
  chunkLoop newId document sentences rest cur idx start acc
    = (cur', idx', start', acc') ->
  exists runs' pending',
    concat runs ++ pending ++ rest = concat runs' ++ pending' /\
    map content acc' = map trim (runBuffers seed true runs') /\
    cur' = seededBuffer (seedOf seed runs') pending'.
Proof.
  intros seed. revert cur idx start acc runs pending.
  induction rest as [|x rest IH];
    intros cur idx start acc runs pending Hr Hp Hrp Hacc Hcur Hrun.
  - simpl in Hrun. injection Hrun as <- <- <- <-.
    exists runs, pending. rewrite app_nil_r. auto.
  - pose proof (Forall_inv Hr) as Hx. pose proof (Forall_inv_tail Hr) as Hr'.
    simpl chunkLoop in Hrun.
    assert (Hpot : (cur +:+ (if String.eqb cur "" then "" else " ") +:+ x)
                   = seededBuffer (seedOf seed runs) (pending ++ [x])).
    { rewrite Hcur. clear Hrun. destruct runs as [|r0 runs0].
      - simpl in *. destruct pending as [|p0 pend0].
        + simpl. reflexivity.
        + assert (Hne : joinSp (p0 :: pend0) <> "")
            by (apply joinSp_ne; [exact Hp|discriminate]).
          apply eqb_false_ne in Hne. rewrite Hne.
          rewrite joinSp_snoc by discriminate. reflexivity.
      - simpl in *. specialize (Hrp ltac:(discriminate)).
        assert (Hne : seed +:+ " " +:+ joinSp pending <> "")
          by apply str_app_space_ne.
        apply eqb_false_ne in Hne. rewrite Hne.
        rewrite joinSp_snoc by exact Hrp.
        rewrite !str_app_assoc. reflexivity. }
    destruct (_ && _) eqn:E.
    + apply andb_true_iff in E as [_ Hc].
      apply negb_true_iff, eqb_false_ne in Hc.
      set (acc2 := acc ++ [mkFolderChunk newId document cur start idx]) in Hrun.
      assert (Hacc2 : map content acc2
                      = map trim (runBuffers seed true (runs ++ [pending]))).
      { subst acc2. rewrite map_app, Hacc, runBuffers_snoc, map_app.
        simpl. rewrite <- Hcur. reflexivity. }
      assert (Hcur2 : joinSp (sliceFrom sentences (- cOverlap CHUNK_CONFIG))
                        +:+ " " +:+ x
                      = seededBuffer (seedOf seed (runs ++ [pending])) [x])
        by (destruct runs; reflexivity).
      destruct (IH _ _ _ acc2 (runs ++ [pending]) [x] Hr'
                  ltac:(constructor; [exact Hx|constructor])
                  ltac:(intros _; discriminate) Hacc2 Hcur2 Hrun)
        as (runs' & pending' & H1 & H2 & H3).
      exists runs', pending'. split; [|split; assumption].
      rewrite <- H1. rewrite concat_app. simpl.
      rewrite app_nil_r, <- !app_assoc. reflexivity.
    + destruct (IH _ _ _ _ runs (pending ++ [x]) Hr'
                  ltac:(apply Forall_app; split;
                        [exact Hp|constructor; [exact Hx|constructor]])
                  ltac:(intros _; destruct pending; discriminate)
                  Hacc Hpot Hrun)
        as (runs' & pending' & H1 & H2 & H3).
      exists runs', pending'. split; [|split; assumption].
      rewrite <- H1. rewrite <- app_assoc. reflexivity.
Qed.

(** ** C3 *)
(** Claim C3 (amended): the chunks of a document, in [chunkIndex] order,
    are the trimmed buffers of consecutive runs of the sentence segments
    [splitIntoSentences content]: the first buffer is the space-join of its
    run, every later buffer is a seeded overlap text, a space and the
    space-join of its run. The runs cover all segments in order, except the
    last run, whose buffer becomes a chunk only when it is not blank and its
    estimate reaches [minChunkSize]. The [.!?] delimiters are not kept, so
    the content itself is not reconstructed. *)
Theorem chunkDocument_covers_sentences (newId : nat -> string)
    (document : FolderDocument) :
  let ss := splitIntoSentences (docContent document) in
  let seed := joinSp (sliceFrom ss (- cOverlap CHUNK_CONFIG)) in
  exists (runs : list (list string)) (final : list string),
    ss = concat runs ++ final /\
    let fb := seededBuffer (seedOf seed runs) final in
    map content (chunkDocument newId document)
    = map trim (runBuffers seed true runs)
      ++ (if negb (String.eqb (trim fb) "")
             && (cMinChunkSize CHUNK_CONFIG <=? estimateTokens fb)%Z
          then [trim fb] else []).
Proof.
  intros ss seed. unfold chunkDocument. fold ss.
  destruct (chunkLoop newId document ss ss "" 0 0%Z []) as [[[cur idx] st] acc]
    eqn:L.
  destruct (chunkLoop_runs newId document ss ss "" 0 0%Z [] [] [] cur idx st acc
              (sentences_ne _) (List.Forall_nil _) ltac:(intros H; congruence)
              eq_refl eq_refl L)
    as (runs & final & H1 & H2 & H3).
  exists runs, final. split; [exact H1|].
  cbv zeta. fold seed in H2, H3. rewrite <- H3.
  destruct (_ && _).
  - rewrite map_app, H2. reflexivity.
  - rewrite app_nil_r. exact H2.
Qed.

(** Counterexample to C3 as stated: a 400-character sentence and its
    period give one chunk without the period, so the chunks do not
    reconstruct the content. *)
Lemma chunkDocument_reconstructs_cex :
  map content (chunkDocument Inputs.chunkIds Inputs.shortDoc) = [JS.rep 400 "x"]
  /\ JS.rep 400 "x" <> docContent Inputs.shortDoc.
Proof.
  split; [vm_compute; reflexivity|].
  intros H. apply (f_equal String.length) in H. vm_compute in H. discriminate.
Qed.

(** ** C2 *)
(** Failing input for C2: with 71 sentences of 100 characters, the first
    chunk holds sentences 0..19; the next buffer is seeded with the last 50
    sentences of the whole document (21..70), not of the emitted buffer, so
    the second chunk neither starts with the emitted sentences plus the
    triggering sentence 20 nor shares any non-empty text with the end of the
    first chunk. *)
Lemma chunkDocument_overlap_from_document_tail :
  let ss := splitIntoSentences (docContent Inputs.overlapDoc) in
  let cs := map content (chunkDocument Inputs.chunkIds Inputs.overlapDoc) in
  length ss = 71 /\
  nth 0 cs "" = joinSp (take 20 ss) /\
  nth 1 cs "" = joinSp (drop 21 ss) +:+ " " +:+ nth 20 ss "" /\
  String.prefix (joinSp (take 20 ss) +:+ " " +:+ nth 20 ss "") (nth 1 cs "")
    = false /\
  sharesOverlap (nth 0 cs "") (nth 1 cs "") = false.
Proof. vm_compute. repeat split; reflexivity. Qed.

End ChunkerFacts.

(** ** Similarity *)
Module SimilarityFacts.
Import Similarity.
Local Open Scope R_scope.

Lemma dot_fold_comm (a b : list R) (x : R) :
  fold_left (fun sum xy => sum + fst xy * snd xy) (combine a b) x
  = fold_left (fun sum xy => sum + fst xy * snd xy) (combine b a) x.
Proof.
  revert b x; induction a as [|va a IH]; intros [|vb b] x; simpl; try reflexivity.
  rewrite (Rmult_comm va vb). apply IH.
Qed.

Lemma dot_fold_self (a : list R) (x : R) :
  fold_left (fun sum xy => sum + fst xy * snd xy) (combine a a) x
  = fold_left (fun sum v => sum + v * v) a x.
Proof.
  revert x; induction a as [|v a IH]; intros x; simpl; [reflexivity|apply IH].
Qed.

Lemma sq_fold_nonneg (a : list R) (x : R) :
  0 <= x -> 0 <= fold_left (fun sum v => sum + v * v) a x.
Proof.
  revert x; induction a as [|v a IH]; intros x Hx; simpl; [exact Hx|].
  apply IH. pose proof (Rle_0_sqr v). unfold Rsqr in *. lra.
Qed.

Lemma dotProduct_comm (a b : list R) : dotProduct a b = dotProduct b a.
Proof. unfold dotProduct. apply dot_fold_comm. Qed.

Lemma dotProduct_self (a : list R) : dotProduct a a = magnitude a * magnitude a.
Proof.
  unfold dotProduct, magnitude. rewrite dot_fold_self.
  rewrite sqrt_sqrt; [reflexivity|]. apply sq_fold_nonneg. lra.
Qed.

(** C9: [cosineSimilarity] is symmetric on vectors of equal length, and a
    vector of non-zero magnitude (in particular a normalised one) has
    similarity exactly 1 with itself, over the reals. *)
Theorem cosineSimilarity_symmetric_self :
  (forall a b : list R, length a = length b ->
     cosineSimilarity a b = cosineSimilarity b a) /\
  (forall a : list R, magnitude a <> 0 -> cosineSimilarity a a = 1).
Proof.
  split.
  - intros a b _. unfold cosineSimilarity.
    rewrite dotProduct_comm, (Rmult_comm (magnitude a)). reflexivity.
  - intros a Ha. unfold cosineSimilarity. rewrite dotProduct_self.
    field. exact Ha.
Qed.

Lemma cosineSimilarity_symmetric_self_witness :
  (length [1; 2] = length [3; 4] /\
   cosineSimilarity [1; 2] [3; 4] = cosineSimilarity [3; 4] [1; 2]) /\
  (magnitude [1] <> 0 /\ cosineSimilarity [1] [1] = 1).
Proof.
  split.
  - split; [reflexivity|].
    apply (proj1 cosineSimilarity_symmetric_self). reflexivity.
  - assert (Hm : magnitude [1] <> 0).
    { unfold magnitude; simpl. rewrite Rplus_0_l, Rmult_1_r, sqrt_1. lra. }
    split; [exact Hm|].
    apply (proj2 cosineSimilarity_symmetric_self). exact Hm.
Defined.

End SimilarityFacts.

(** ** Storage keys, search and RAG context *)
Module SearchFacts.
Import Model Store Similarity Search FolderContext RAGInputs.

Fixpoint hasDash (s : string) : bool :=
  match s with
  | EmptyString => false
  | String c s' => Ascii.eqb c "-"%char || hasDash s'
  end.

Lemma str_app_cancel_l (p a b : string) : p +:+ a = p +:+ b -> a = b.
Proof.
  induction p as [|ch p IH]; simpl; [tauto|].
  intros H. injection H as H. exact (IH H).
Qed.

Lemma split_at_dash (a a' u u' : string) :
  hasDash a = false -> hasDash a' = false ->
  a +:+ String "-" u = a' +:+ String "-" u' -> a = a' /\ u = u'.
Proof.
  revert a'; induction a as [|c a IH]; intros [|c' a'] Ha Ha' H; simpl in *.
  - injection H as H. auto.
  - injection H as Hc _. subst c'. discriminate.
  - injection H as Hc _. subst c. discriminate.
  - apply orb_false_iff in Ha as [_ Ha]. apply orb_false_iff in Ha' as [_ Ha'].
    injection H as Hc H. subst c'. destruct (IH a' Ha Ha' H) as [-> ->]. auto.
Qed.

Lemma dash_vs_nodash (a u w : string) :
  hasDash a = false -> a <> EmptyString -> a +:+ String "-" u <> String "-" w.
Proof.
  destruct a as [|c a]; [tauto|]; simpl; intros Ha _ H.
  injection H as Hc _. subst c. discriminate.
Qed.

Lemma pretty_N_go_nodash (x : N) (s : string) :
  hasDash s = false -> hasDash (pretty_N_go x s) = false.
Proof.
  revert s. induction (N.lt_wf_0 x) as [x _ IH]; intros s Hs.
  assert (x = 0 \/ 0 < x)%N as [->|Hx] by lia.
  - rewrite pretty_N_go_0. exact Hs.
  - rewrite pretty_N_go_step by exact Hx. apply IH.
    + apply N.div_lt; [exact Hx|lia].
    + simpl. rewrite Hs, orb_false_r. unfold pretty_N_char.
      repeat case_match; reflexivity.
Qed.

Lemma pretty_N_go_nonempty (x : N) (s : string) :
  s <> EmptyString -> pretty_N_go x s <> EmptyString.
Proof.
  revert s. induction (N.lt_wf_0 x) as [x _ IH]; intros s Hs.
  assert (x = 0 \/ 0 < x)%N as [->|Hx] by lia.
  - rewrite pretty_N_go_0. exact Hs.
  - rewrite pretty_N_go_step by exact Hx. apply IH.
    + apply N.div_lt; [exact Hx|lia].
    + discriminate.
Qed.

Lemma pretty_pos_shape (p : positive) :
  hasDash (pretty (N.pos p)) = false /\ pretty (N.pos p) <> EmptyString.
Proof.
  unfold pretty, pretty_N. case_decide as Hp; [discriminate|].
  rewrite pretty_N_go_step by lia. split.
  - apply pretty_N_go_nodash. simpl. unfold pretty_N_char.
    repeat case_match; reflexivity.
  - apply pretty_N_go_nonempty. discriminate.
Qed.

Lemma pretty_Z_shape (f : Z) :
  (hasDash (pretty f) = false /\ pretty f <> EmptyString) \/
  (exists P, pretty f = String "-" P /\ hasDash P = false /\ P <> EmptyString).
Proof.
  destruct f as [|p|p].
  - left. split; [reflexivity|discriminate].
  - left. exact (pretty_pos_shape p).
  - right. exists (pretty (N.pos p)). split; [reflexivity|]. exact (pretty_pos_shape p).
Qed.

Lemma pretty_dash_split (f f' : Z) (u u' : string) :
  pretty f +:+ String "-" u = pretty f' +:+ String "-" u' -> f = f' /\ u = u'.
Proof.
  intros H.
  assert (pretty f = pretty f' /\ u = u') as [Hp ->].
  { destruct (pretty_Z_shape f) as [[Hd Hn]|[P [HP [Hd Hn]]]];
    destruct (pretty_Z_shape f') as [[Hd' Hn']|[P' [HP' [Hd' Hn']]]].
    - exact (split_at_dash _ _ _ _ Hd Hd' H).
    - rewrite HP' in H. simpl in H. exfalso. exact (dash_vs_nodash _ _ _ Hd Hn H).
    - rewrite HP in H. simpl in H. exfalso.
      exact (dash_vs_nodash _ _ _ Hd' Hn' (eq_sym H)).
    - rewrite HP, HP' in *. simpl in H. injection H as H.
      destruct (split_at_dash _ _ _ _ Hd Hd' H) as [-> ->]. auto. }
  split; [|reflexivity]. exact (inj pretty _ _ Hp).
Qed.

Lemma chunksKey_inj (f f' : Z) (u u' : string) :
  chunksKey f u = chunksKey f' u' -> f = f' /\ u = u'.
Proof.
  unfold chunksKey, memKey. intros H.
  apply (str_app_cancel_l "chunks-"%string) in H.
  apply pretty_dash_split. exact H.
Qed.

(** Every list of chunks of the memory store sits under the key of its own
    chunks' scope. *)
Definition chunksKeyed (m : gmap string MVal) : Prop :=
  forall k l, m !! k = Some (MChunks l) ->
  forall c, In c l -> chunksKey (folderId c) (userId c) = k.

Definition backendInv (s : Backend) : Prop :=
  match s with
  | Memory m => chunksKeyed m
  | IndexedDB _ => True
  end.

Lemma chunksKeyed_insert_other (m : gmap string MVal) (k : string) (v : MVal) :
  chunksKeyed m -> (forall l, v <> MChunks l) -> chunksKeyed (<[k := v]> m).
Proof.
  intros Hm Hv k' l Hk c Hc. apply lookup_insert_Some in Hk as [[_ Hvl]|[_ Hk]].
  - exfalso. exact (Hv l Hvl).
  - exact (Hm k' l Hk c Hc).
Qed.

Lemma reachable_inv (s : Backend) : reachable s -> backendInv s.
Proof.
  induction 1 as [| db | s op s' _ IH Hop].
  - intros k l Hk. rewrite lookup_empty in Hk. discriminate.
  - exact I.
  - destruct s as [m|db]; destruct op as [d|c|e|g]; simpl in Hop;
      try (destruct (idbAdd _ _ _); simpl in Hop; [|discriminate]);
      injection Hop as <-; simpl in *; try exact I.
    + apply chunksKeyed_insert_other; [exact IH|discriminate].
    + intros k l Hk c' Hc'. apply lookup_insert_Some in Hk as [[<- Hl]|[_ Hk]].
      * injection Hl as <-. apply in_app_or in Hc' as [Hc'|[<-|[]]]; [|reflexivity].
        unfold memChunks in Hc'. destruct (m !! _) as [[]|] eqn:E; try contradiction.
        exact (IH _ _ E c' Hc').
      * exact (IH k l Hk c' Hc').
    + apply chunksKeyed_insert_other; [exact IH|discriminate].
    + apply chunksKeyed_insert_other; [exact IH|discriminate].
Qed.

Lemma getChunks_scoped (s : Backend) (f : Z) (u : string) (c : FolderChunk) :
  reachable s -> In c (getChunks s f u) -> folderId c = f /\ userId c = u.
Proof.
  intros Hr Hc. pose proof (reachable_inv s Hr) as Hinv.
  destruct s as [m|db]; simpl in *.
  - unfold memChunks in Hc. destruct (m !! chunksKey f u) as [[]|] eqn:E;
      try contradiction.
    apply chunksKey_inj. exact (Hinv _ _ E c Hc).
  - apply filter_In in Hc as [_ Hc]. apply andb_true_iff in Hc as [H1 H2].
    split; [apply Z.eqb_eq|apply String.eqb_eq]; assumption.
Qed.

Lemma in_omap {A B} (g : A -> option B) (l : list A) (y : B) :
  In y (omap g l) -> exists x, In x l /\ g x = Some y.
Proof.
  induction l as [|x l IH]; simpl; [tauto|].
  destruct (g x) as [y'|] eqn:E; simpl.
  - intros [<-|Hy]; [eauto|]. destruct (IH Hy) as [x' [? ?]]. eauto.
  - intros Hy. destruct (IH Hy) as [x' [? ?]]. eauto.
Qed.

(** C1: in every state the service can reach, with either storage back end,
    each pair returned by [searchSimilarContent] for a scope
    [(folderId, userId)] carries a chunk of that very scope, whatever the
    query embedding and the limit. *)
Theorem searchSimilarContent_scoped (s : Backend) (Hs : reachable s) :
  forall (queryEmbedding : list R) (f : Z) (u : string) (limit : Z)
         (c : FolderChunk) (sim : R),
  In (c, sim) (searchSimilarContent s queryEmbedding f u limit) ->
  folderId c = f /\ userId c = u.
Proof.
  intros qe f u limit c sim Hin. unfold searchSimilarContent in Hin.
  apply in_omap in Hin as [r [_ Hr]].
  destruct (List.find _ _) as [c'|] eqn:E; [|discriminate].
  injection Hr as <- _. apply find_some in E as [Hc _].
  exact (getChunks_scoped s f u c' Hs Hc).
Qed.

Lemma searchSimilarContent_scoped_witness :
  reachable memStore /\
  forall (c : FolderChunk) (sim : R),
  In (c, sim) (searchSimilarContent memStore queryX 1 "user-1"%string 5) ->
  folderId c = 1%Z /\ userId c = "user-1"%string.
Proof.
  assert (Hr : reachable memStore).
  { assert (H1 : reachable (match storeChunk chunkA (Memory ∅) with
                            | Some s => s | None => Memory ∅ end)).
    { apply (reach_op (Memory ∅) (OpChunk chunkA)); [apply reach_memory|reflexivity]. }
    apply (reach_op _ (OpEmbedding embA) _ H1). reflexivity. }
  split; [exact Hr|].
  intros c sim. apply (searchSimilarContent_scoped memStore Hr).
Defined.

Lemma magnitude_unit : magnitude [4/5; 3/5]%R = 1%R.
Proof.
  unfold magnitude; simpl.
  match goal with |- sqrt ?x = _ => replace x with 1%R by lra end.
  apply sqrt_1.
Qed.

Lemma cos_queryX_embA : cosineSimilarity queryX (vector embA) = (4/5)%R.
Proof.
  change (vector embA) with [4/5; 3/5]%R.
  unfold cosineSimilarity. rewrite magnitude_unit.
  assert (Hq : magnitude queryX = 1%R).
  { unfold magnitude, queryX; simpl.
    match goal with |- sqrt ?x = _ => replace x with 1%R by lra end.
    apply sqrt_1. }
  rewrite Hq. unfold dotProduct; simpl. lra.
Qed.

Lemma search_ragStore :
  searchSimilarContent ragStore queryX 1 "user-1"%string 10
  = [(chunkA, cosineSimilarity queryX (vector embA))].
Proof. reflexivity. Qed.

Lemma search_twoStore_len :
  length (searchSimilarContent twoStore queryX 1 "user-1"%string (-1)) = 1%nat.
Proof.
  unfold searchSimilarContent, sortDesc. simpl.
  destruct (Rlt_dec _ _); reflexivity.
Qed.

(** C8: with limit 0 the search returns nothing, but a negative limit is
    passed on to [slice(0, limit)], which then drops entries from the end:
    with two embeddings in scope and limit -1, one result is returned. *)
Theorem searchSimilarContent_negative_limit :
  (forall s qe f u, searchSimilarContent s qe f u 0 = []) /\
  length (getEmbeddings twoStore 1 "user-1"%string) = 2%nat /\
  length (searchSimilarContent twoStore queryX 1 "user-1"%string (-1)) = 1%nat.
Proof.
  split; [|split].
  - intros s qe f u. reflexivity.
  - reflexivity.
  - exact search_twoStore_len.
Qed.

(** C6: folder 1 is configured with [ragSimilarityThreshold = 0.9]; its only
    chunk has similarity 0.8 with the query, below that threshold, and is
    still placed in the RAG context: [buildRAGContext] never passes the
    threshold on and [buildContextForQuery] compares with a fixed 0.7. *)
Theorem folderRAGContext_ignores_threshold :
  ragSimilarityThreshold (getFolderConfig strictConfigs 1) = (9/10)%R /\
  includeRAGData (getFolderConfig strictConfigs 1) = true /\
  searchSimilarContent ragStore queryX 1 "user-1"%string 10 = [(chunkA, (4/5)%R)] /\
  folderRAGContext strictConfigs ragStore queryX 1 "user-1"%string
  = (nl +:+ "--- FOLDER CONTEXT (Folder ID: 1) ---" +:+ nl
     +:+ "--- a.txt ---" +:+ nl +:+ "hello"
     +:+ nl +:+ "--- END FOLDER CONTEXT ---" +:+ nl)%string.
Proof.
  assert (Hs : searchSimilarContent ragStore queryX 1 "user-1"%string 10
               = [(chunkA, (4/5)%R)]).
  { rewrite search_ragStore, cos_queryX_embA. reflexivity. }
  split; [reflexivity|]. split; [reflexivity|]. split; [exact Hs|].
  unfold folderRAGContext. change (getFolderConfig strictConfigs 1) with strictConfig.
  unfold strictConfig; cbn [includeRAGData maxRAGTokens ragSimilarityThreshold].
  unfold buildRAGContext, buildContextForQuery. rewrite Hs.
  unfold accumulate.
  destruct (Rlt_dec (7/10) (4/5)) as [_|Hn]; [reflexivity|].
  exfalso. apply Hn. lra.
Qed.

End SearchFacts.

(** ** Knowledge graphs *)
Module GraphFacts.
Import Model Store Graph RAGInputs.

Definition graphIdOf (f : Z) : string := (pretty f +:+ "-graph")%string.

(** Every graph record of the IndexedDB store has the id
    [`${folderId}-graph`] that [updateKnowledgeGraph] gives it. *)
Definition graphIdsOk (s : Backend) : bool :=
  match s with
  | Memory _ => true
  | IndexedDB db =>
      forallb (fun g => String.eqb (graphId g) (graphIdOf (graphFolderId g)))
        (folderKnowledgeGraphs db)
  end.

Definition inScope (f : Z) (u : string) (g : FolderKnowledgeGraph) : bool :=
  Z.eqb (graphFolderId g) f && String.eqb (graphUserId g) u.

Lemma scope_filter_after_put (f : Z) (u : string) (l : list FolderKnowledgeGraph) :
  forallb (fun g => String.eqb (graphId g) (graphIdOf (graphFolderId g))) l = true ->
  List.filter (inScope f u)
    (List.filter (fun y => negb (String.eqb (graphId y) (graphIdOf f))) l) = [].
Proof.
  induction l as [|g l IH]; simpl; [reflexivity|].
  intros H. apply andb_true_iff in H as [Hg Hl].
  apply String.eqb_eq in Hg.
  destruct (String.eqb (graphId g) (graphIdOf f)) eqn:E; simpl; [exact (IH Hl)|].
  destruct (inScope f u g) eqn:Es; [|exact (IH Hl)].
  unfold inScope in Es. apply andb_true_iff in Es as [Ef _].
  apply Z.eqb_eq in Ef. rewrite Hg, Ef, String.eqb_refl in E. discriminate.
Qed.

Lemma updateKnowledgeGraph_id (d : FolderDocument) (cs : list FolderChunk) :
  graphId (updateKnowledgeGraph d cs) = graphIdOf (docFolderId d).
Proof. reflexivity. Qed.

Lemma getKnowledgeGraph_after_store (s : Backend) (d : FolderDocument)
    (cs : list FolderChunk) :
  graphIdsOk s = true ->
  getKnowledgeGraph (storeKnowledgeGraph (updateKnowledgeGraph d cs) s)
    (docFolderId d) (docUserId d) = Some (updateKnowledgeGraph d cs).
Proof.
  destruct s as [m|db]; simpl; intros Hok.
  - unfold graphKey. rewrite lookup_insert_eq. reflexivity.
  - unfold idbPut. rewrite updateKnowledgeGraph_id, List.filter_app.
    change (fun g => (Z.eqb (graphFolderId g) (docFolderId d)
                      && String.eqb (graphUserId g) (docUserId d))%bool)
      with (inScope (docFolderId d) (docUserId d)).
    rewrite (scope_filter_after_put _ _ _ Hok). simpl.
    unfold inScope; simpl. rewrite Z.eqb_refl, String.eqb_refl. reflexivity.
Qed.

Lemma graphIdsOk_store (s : Backend) (d : FolderDocument) (cs : list FolderChunk) :
  graphIdsOk s = true ->
  graphIdsOk (storeKnowledgeGraph (updateKnowledgeGraph d cs) s) = true.
Proof.
  destruct s as [m|db]; simpl; [reflexivity|]. intros Hok.
  unfold idbPut. rewrite forallb_app. apply andb_true_iff. split.
  - rewrite forallb_forall in *. intros g Hg. apply filter_In in Hg as [Hg _].
    exact (Hok g Hg).
  - simpl. rewrite String.eqb_refl. reflexivity.
Qed.

(** C7 (amended): storing the graph of a document replaces the graph of its
    scope. After the graphs of document A and then of document B of the
    same [(folderId, userId)] are stored, with either back end, the stored
    graph of that scope is exactly B's graph: B's document node and concept
    nodes, with [documentCount] 1. *)
Theorem knowledgeGraph_last_document_wins (s : Backend)
    (dA dB : FolderDocument) (csA csB : list FolderChunk) :
  graphIdsOk s = true ->
  docFolderId dA = docFolderId dB -> docUserId dA = docUserId dB ->
  getKnowledgeGraph
    (storeKnowledgeGraph (updateKnowledgeGraph dB csB)
       (storeKnowledgeGraph (updateKnowledgeGraph dA csA) s))
    (docFolderId dB) (docUserId dB)
  = Some (updateKnowledgeGraph dB csB).
Proof.
  intros Hok _ _. apply getKnowledgeGraph_after_store.
  apply graphIdsOk_store. exact Hok.
Qed.

Lemma knowledgeGraph_last_document_wins_witness :
  (graphIdsOk (Memory ∅) = true /\
   docFolderId docA = docFolderId docB /\ docUserId docA = docUserId docB) /\
  getKnowledgeGraph
    (storeKnowledgeGraph (updateKnowledgeGraph docB [])
       (storeKnowledgeGraph (updateKnowledgeGraph docA []) (Memory ∅)))
    (docFolderId docB) (docUserId docB)
  = Some (updateKnowledgeGraph docB []).
Proof.
  split; [split; [reflexivity|split; reflexivity]|].
  apply knowledgeGraph_last_document_wins; reflexivity.
Defined.

(** C7, counterexample: A's graph holds A's document node, but after B of
    the same scope is ingested the stored graph of the scope has no node of
    A. *)
Lemma knowledgeGraph_merge_cex :
  In "doc-a"%string (map nodeId (nodes (updateKnowledgeGraph docA []))) /\
  exists g,
    getKnowledgeGraph
      (storeKnowledgeGraph (updateKnowledgeGraph docB [])
         (storeKnowledgeGraph (updateKnowledgeGraph docA []) (Memory ∅)))
      1 "user-1"%string = Some g /\
    ~ In "doc-a"%string (map nodeId (nodes g)) /\ documentCount g = 1%Z.
Proof.
  split; [left; reflexivity|].
  exists (updateKnowledgeGraph docB []). split; [reflexivity|].
  split; [|reflexivity].
  simpl. intros [H|[]]. discriminate.
Qed.

End GraphFacts.

(** ** More of context-manager.ts *)
Module ContextExtraFacts.
Import ContextManager SystemPrompt.

Lemma str_app_nil_r (s : string) : (s +:+ "")%string = s.
Proof.
  induction s as [|c s IH]; [reflexivity|]. exact (f_equal (String c) IH).
Qed.

Lemma str_length_app (a b : string) :
  String.length (a +:+ b) = (String.length a + String.length b)%nat.
Proof. induction a as [|c a IH]; simpl; [reflexivity|]. rewrite IH. reflexivity. Qed.

Lemma substring0_prefix (n : nat) (s : string) :
  exists r, s = (String.substring 0 n s +:+ r)%string.
Proof.
  revert n; induction s as [|c s IH]; intros [|n]; simpl.
  - exists ""%string. reflexivity.
  - exists ""%string. reflexivity.
  - exists (String c s). reflexivity.
  - destruct (IH n) as [r Hr]. exists r. exact (f_equal (String c) Hr).
Qed.

Lemma substring0_length (n : nat) (s : string) :
  (String.length (String.substring 0 n s) <= n)%nat.
Proof.
  revert n; induction s as [|c s IH]; intros [|n]; simpl; try lia.
  specialize (IH n). lia.
Qed.

(** [truncateText] returns [text] when it fits in [4 * maxTokens]
    characters, and otherwise a prefix of [text] of at most that many
    characters followed by ["..."]. *)
Theorem truncateText_prefix (text : string) (maxTok : Z) :
  exists p r,
    text = (p +:+ r)%string /\
    (JS.len text <= maxTok * 4 -> p = text)%Z /\
    (String.length p <= Z.to_nat (maxTok * 4))%nat /\
    truncateText text maxTok
    = (if (JS.len text <=? maxTok * 4)%Z then text else p +:+ "...")%string.
Proof.
  unfold truncateText. destruct (JS.len text <=? maxTok * 4)%Z eqn:E.
  - exists text, ""%string. apply Z.leb_le in E.
    split; [symmetry; apply str_app_nil_r|].
    split; [reflexivity|]. split; [|reflexivity].
    unfold JS.len in E. lia.
  - apply Z.leb_gt in E.
    set (t := JS.substring0 text (maxTok * 4)).
    assert (Ht : exists r, text = (t +:+ r)%string) by apply substring0_prefix.
    assert (Hl : (String.length t <= Z.to_nat (maxTok * 4))%nat)
      by apply substring0_length.
    destruct Ht as [r1 Hr1].
    destruct (4 * (maxTok * 4) <? 5 * JS.lastIndexOf " "%char t)%Z.
    + set (p := JS.substring0 t (JS.lastIndexOf " "%char t)).
      destruct (substring0_prefix (Z.to_nat (JS.lastIndexOf " "%char t)) t) as [r2 Hr2].
      exists p, (r2 +:+ r1)%string. split.
      * rewrite Hr1 at 1. rewrite Hr2 at 1. apply ChunkerFacts.str_app_assoc.
      * split; [intros; lia|]. split; [|reflexivity].
        pose proof (substring0_length (Z.to_nat (JS.lastIndexOf " "%char t)) t).
        assert (String.length p <= String.length t)%nat.
        { pose proof (f_equal String.length Hr2) as HL.
          rewrite str_length_app in HL. unfold p, JS.substring0. lia. }
        lia.
    + exists t, r1. split; [exact Hr1|]. split; [intros; lia|].
      split; [exact Hl|reflexivity].
Qed.

Lemma truncateText_prefix_witness :
  (JS.len "abc" <= 1 * 4)%Z /\
  exists p r,
    "abc"%string = (p +:+ r)%string /\
    (JS.len "abc" <= 1 * 4 -> p = "abc"%string)%Z /\
    (String.length p <= Z.to_nat (1 * 4))%nat /\
    truncateText "abc" 1
    = (if (JS.len "abc" <=? 1 * 4)%Z then "abc" else p +:+ "...")%string.
Proof. split; [vm_compute; discriminate|]. apply truncateText_prefix. Defined.

Lemma pairWalk_length fl avail rest sel used tr :
  (Z.of_nat (length (pairWalk fl avail rest sel used tr).1.1)
   <= Z.max (maxMessages fl) (Z.of_nat (length sel)))%Z.
Proof.
  revert rest sel used tr.
  fix IH 1. intros rest sel used tr.
  destruct rest as [|a [|u rest']]; simpl; try lia.
  destruct (_ && _) eqn:E; simpl; [|lia].
  apply andb_true_iff in E as [_ E]. apply Z.leb_le in E.
  specialize (IH rest' (u :: a :: sel) (used + (estimateMessageTokens a
    + estimateMessageTokens u))%Z tr). simpl in IH. lia.
Qed.

Lemma latestStep_length avail m :
  (length (latestStep avail m).1.1 <= 1)%nat.
Proof.
  unfold latestStep. destruct (Role_eqb _ _); [|simpl; lia].
  destruct (_ <=? _)%Z; simpl; lia.
Qed.

(** [buildContext] returns at most [max(maxMessages, 1) + 1] messages: the
    message-count check covers the pairs of the walk but neither the system
    message nor the latest user message. *)
Theorem buildContext_message_count (h : list OpenRouterMessage) (sp : string)
    (pl : PartialTokenLimits) :
  (Z.of_nat (length (messages (buildContext h sp pl)))
   <= Z.max (maxMessages (finalLimits pl)) 1 + 1)%Z.
Proof.
  unfold buildContext. destruct h as [|m h']; [simpl; lia|].
  cbv zeta.
  destruct (rev (m :: h')) as [|latest rest] eqn:Er.
  - simpl. pose proof (pairWalk_length (finalLimits pl)
      (availableTokens sp (finalLimits pl)) [] [] 0%Z false) as H.
    simpl in *. lia.
  - destruct (latestStep (availableTokens sp (finalLimits pl)) latest)
      as [[s0 u0] t0] eqn:El.
    pose proof (latestStep_length (availableTokens sp (finalLimits pl)) latest) as H0.
    rewrite El in H0. simpl in H0.
    destruct (pairWalk (finalLimits pl) (availableTokens sp (finalLimits pl))
                (tail (latest :: rest)) s0 u0 t0) as [[sel used] tr] eqn:Ep.
    pose proof (pairWalk_length (finalLimits pl) (availableTokens sp (finalLimits pl))
                  (tail (latest :: rest)) s0 u0 t0) as H.
    rewrite Ep in H. simpl in *. lia.
Qed.

Definition startsWith (b p : string) : Prop := exists r, p = (b +:+ r)%string.

Lemma startsWith_app (b p t : string) :
  startsWith b p -> startsWith b (p +:+ t)%string.
Proof.
  intros [r ->]. exists (r +:+ t)%string. apply ChunkerFacts.str_app_assoc.
Qed.

Lemma startsWith_refl (b : string) : startsWith b b.
Proof. exists ""%string. symmetry. apply str_app_nil_r. Qed.

(** [buildSystemPrompt] returns [basePrompt] unchanged without a project
    context, and otherwise [basePrompt] followed by the project section. *)
Theorem buildSystemPrompt_extends (basePrompt : string) :
  buildSystemPrompt basePrompt None = basePrompt /\
  forall pc : ProjectContext,
    exists rest, buildSystemPrompt basePrompt (Some pc)
                 = (basePrompt +:+ Search.nl +:+ Search.nl +:+ "## Project Context"
                    +:+ Search.nl +:+ rest)%string.
Proof.
  split; [reflexivity|]. intros pc.
  set (hd := (basePrompt +:+ Search.nl +:+ Search.nl +:+ "## Project Context"
              +:+ Search.nl)%string).
  assert (G : startsWith hd (buildSystemPrompt basePrompt (Some pc))).
  { unfold buildSystemPrompt. fold hd.
    destruct (description pc); [destruct (String.eqb _ _)|];
    destruct (tech_stack pc); try destruct (length _ =? 0)%nat;
    destruct (files pc); try destruct (length _ =? 0)%nat;
    try destruct (10 <? length _)%nat;
    repeat (first [apply startsWith_refl | apply startsWith_app]). }
  destruct G as [r Hr]. exists r. rewrite Hr. unfold hd.
  rewrite !ChunkerFacts.str_app_assoc. reflexivity.
Qed.

End ContextExtraFacts.

(** ** More of folder-context-manager.ts *)
Module FolderFacts.
Import ContextManager Model Store Search FolderContext FolderManager.

(** [setFolderConfig] merges the given fields into the folder's current
    configuration (the defaults when it has none) and touches no other
    folder; after [clearFolderContext] the folder is back to the defaults. *)
Theorem folderConfig_set_clear (folderConfigs : gmap Z FolderContextConfig)
    (f g : Z) (config : PartialFolderContextConfig) :
  getFolderConfig (setFolderConfig folderConfigs f config) g
  = (if Z.eqb g f then mergeFolderConfig (getFolderConfig folderConfigs f) config
     else getFolderConfig folderConfigs g) /\
  getFolderConfig (clearFolderContext folderConfigs f) g
  = (if Z.eqb g f then DEFAULT_FOLDER_CONFIG else getFolderConfig folderConfigs g).
Proof.
  unfold setFolderConfig, clearFolderContext, getFolderConfig.
  destruct (Z.eqb_spec g f) as [->|Hne].
  - rewrite lookup_insert_eq, lookup_delete_eq. split; reflexivity.
  - rewrite lookup_insert_ne, lookup_delete_ne by congruence. split; reflexivity.
Qed.

Lemma buildContext_head (msgs : list OpenRouterMessage) (sp : string)
    (pl : PartialTokenLimits) :
  exists rest, messages (buildContext msgs sp pl) = systemMessage sp :: rest.
Proof.
  unfold buildContext. destruct msgs as [|m msgs]; [eexists; reflexivity|].
  cbv zeta. destruct (match rev (m :: msgs) with
                      | latest :: _ => _ | [] => _ end) as [[s0 u0] t0].
  destruct (pairWalk _ _ _ _ _ _) as [[sel used] tr].
  eexists; reflexivity.
Qed.

Definition containsAfter (b r p : string) : Prop :=
  exists mid post, p = (b +:+ mid +:+ r +:+ post)%string.

Lemma containsAfter_app (b r p t : string) :
  containsAfter b r p -> containsAfter b r (p +:+ t)%string.
Proof.
  intros [mid [post ->]]. exists mid, (post +:+ t)%string.
  rewrite !ChunkerFacts.str_app_assoc. reflexivity.
Qed.

Lemma containsAfter_start (b r p : string) :
  ContextExtraFacts.startsWith b p -> containsAfter b r (p +:+ r)%string.
Proof.
  intros [mid ->]. exists mid, ""%string.
  rewrite ContextExtraFacts.str_app_nil_r, !ChunkerFacts.str_app_assoc. reflexivity.
Qed.

Lemma containsAfter_empty (b p : string) :
  ContextExtraFacts.startsWith b p -> containsAfter b "" p.
Proof.
  intros [mid ->]. exists mid, ""%string. simpl.
  rewrite ContextExtraFacts.str_app_nil_r. reflexivity.
Qed.

Ltac starts :=
  repeat (first [apply ContextExtraFacts.startsWith_refl
                | apply ContextExtraFacts.startsWith_app]).

Ltac contains_rag :=
  first [ apply containsAfter_start; starts
        | apply containsAfter_app; contains_rag ].

(** The context of [buildFolderContext] starts with the system message of
    the folder prompt; that prompt starts with the base prompt, and contains
    the folder's RAG context after it whenever that context is not blank. *)
Theorem buildFolderContext_prompt (folderConfigs : gmap Z FolderContextConfig)
    (s : Backend) (qe : list R) (f : Z) (u : string)
    (msgs : list OpenRouterMessage) (basePrompt : string)
    (limits : PartialTokenLimits) :
  let rag := folderRAGContext folderConfigs s qe f u in
  let prompt := buildFolderSystemPrompt basePrompt f rag in
  (exists rest, messages (buildFolderContext folderConfigs s qe f u msgs basePrompt limits)
                = systemMessage prompt :: rest) /\
  containsAfter basePrompt
    (if String.eqb (JS.trim rag) "" then ""%string else rag) prompt.
Proof.
  cbv zeta. split.
  - unfold buildFolderContext. apply buildContext_head.
  - generalize (folderRAGContext folderConfigs s qe f u) as rag. intros rag.
    unfold buildFolderSystemPrompt.
    destruct (String.eqb (JS.trim rag) "") eqn:E; simpl negb; cbv zeta.
    + apply containsAfter_empty. starts.
    + contains_rag.
Qed.

End FolderFacts.

(** ** Storage round trips, folder cleanup and graph ids *)
Module StoreFacts.
Import Model Store Graph Ingest.

Lemma memKey_inj (p : string) (f f' : Z) (u u' : string) :
  memKey p f u = memKey p f' u' -> f = f' /\ u = u'.
Proof.
  unfold memKey. intros H. apply SearchFacts.str_app_cancel_l in H.
  cbn in H. injection H as H. exact (SearchFacts.pretty_dash_split _ _ _ _ H).
Qed.

Lemma memKey_eq_iff (p : string) (f f' : Z) (u u' : string) :
  memKey p f u = memKey p f' u' <-> (Z.eqb f' f && String.eqb u' u)%bool = true.
Proof.
  rewrite andb_true_iff, Z.eqb_eq, String.eqb_eq. split.
  - intros H. destruct (memKey_inj _ _ _ _ _ H). auto.
  - intros [-> ->]. reflexivity.
Qed.

Ltac keys_ne :=
  unfold docsKey, chunksKey, embeddingsKey, graphKey, memKey; cbn; discriminate.

Lemma lookup_key (m : gmap string MVal) (p : string) (f f' : Z) (u u' : string)
    (v : MVal) :
  <[memKey p f u := v]> m !! memKey p f' u'
  = (if (Z.eqb f' f && String.eqb u' u)%bool then Some v else m !! memKey p f' u').
Proof.
  destruct (Z.eqb f' f && String.eqb u' u)%bool eqn:E.
  - rewrite (proj2 (memKey_eq_iff p f f' u u') E). apply lookup_insert_eq.
  - apply lookup_insert_ne. intros H.
    pose proof (proj1 (memKey_eq_iff p f f' u u') H). congruence.
Qed.

Lemma memory_storeChunk (m : gmap string MVal) (c : FolderChunk) (f : Z) (u : string) :
  exists s', storeChunk c (Memory m) = Some s' /\
    getChunks s' f u = (if (Z.eqb f (folderId c) && String.eqb u (userId c))%bool
                        then getChunks (Memory m) f u ++ [c]
                        else getChunks (Memory m) f u) /\
    getDocuments s' f u = getDocuments (Memory m) f u /\
    getEmbeddings s' f u = getEmbeddings (Memory m) f u /\
    getKnowledgeGraph s' f u = getKnowledgeGraph (Memory m) f u.
Proof.
  eexists. split; [reflexivity|]. simpl.
  unfold getDocuments, memDocs, memEmbs, memChunks.
  split; [|repeat split; rewrite lookup_insert_ne by keys_ne; reflexivity].
  unfold chunksKey. rewrite lookup_key.
  destruct (_ && _)%bool eqn:E; [|reflexivity].
  apply andb_true_iff in E as [E1 E2]. apply Z.eqb_eq in E1. apply String.eqb_eq in E2.
  subst. reflexivity.
Qed.

Lemma memory_storeDocument (m : gmap string MVal) (d : FolderDocument) (f : Z) (u : string) :
  exists s', storeDocument d (Memory m) = Some s' /\
    getDocuments s' f u = (if (Z.eqb f (docFolderId d) && String.eqb u (docUserId d))%bool
                           then getDocuments (Memory m) f u ++ [d]
                           else getDocuments (Memory m) f u) /\
    getChunks s' f u = getChunks (Memory m) f u /\
    getEmbeddings s' f u = getEmbeddings (Memory m) f u /\
    getKnowledgeGraph s' f u = getKnowledgeGraph (Memory m) f u.
Proof.
  eexists. split; [reflexivity|]. simpl.
  unfold getDocuments, memDocs, memEmbs, memChunks.
  split; [|repeat split; rewrite lookup_insert_ne by keys_ne; reflexivity].
  unfold docsKey. rewrite lookup_key.
  destruct (_ && _)%bool eqn:E; [|reflexivity].
  apply andb_true_iff in E as [E1 E2]. apply Z.eqb_eq in E1. apply String.eqb_eq in E2.
  subst. reflexivity.
Qed.

Lemma memory_storeEmbedding (m : gmap string MVal) (e : FolderEmbedding) (f : Z) (u : string) :
  exists s', storeEmbedding e (Memory m) = Some s' /\
    getEmbeddings s' f u = (if (Z.eqb f (embFolderId e) && String.eqb u (embUserId e))%bool
                            then getEmbeddings (Memory m) f u ++ [e]
                            else getEmbeddings (Memory m) f u) /\
    getDocuments s' f u = getDocuments (Memory m) f u /\
    getChunks s' f u = getChunks (Memory m) f u /\
    getKnowledgeGraph s' f u = getKnowledgeGraph (Memory m) f u.
Proof.
  eexists. split; [reflexivity|]. simpl.
  unfold getDocuments, memDocs, memEmbs, memChunks.
  split; [|repeat split; rewrite lookup_insert_ne by keys_ne; reflexivity].
  unfold embeddingsKey. rewrite lookup_key.
  destruct (_ && _)%bool eqn:E; [|reflexivity].
  apply andb_true_iff in E as [E1 E2]. apply Z.eqb_eq in E1. apply String.eqb_eq in E2.
  subst. reflexivity.
Qed.

Lemma memory_storeGraph (m : gmap string MVal) (g : FolderKnowledgeGraph) (f : Z) (u : string) :
  getKnowledgeGraph (storeKnowledgeGraph g (Memory m)) f u
  = (if (Z.eqb f (graphFolderId g) && String.eqb u (graphUserId g))%bool
     then Some g else getKnowledgeGraph (Memory m) f u) /\
  getDocuments (storeKnowledgeGraph g (Memory m)) f u = getDocuments (Memory m) f u /\
  getChunks (storeKnowledgeGraph g (Memory m)) f u = getChunks (Memory m) f u /\
  getEmbeddings (storeKnowledgeGraph g (Memory m)) f u = getEmbeddings (Memory m) f u.
Proof.
  simpl. unfold getDocuments, memDocs, memEmbs, memChunks.
  split; [|repeat split; rewrite lookup_insert_ne by keys_ne; reflexivity].
  unfold graphKey. rewrite lookup_key.
  destruct (_ && _)%bool; reflexivity.
Qed.

(** In the memory back end, storing a chunk, a document or an embedding
    never fails and appends the record to the list of its own scope only;
    the other lists and scopes read back unchanged. *)
Theorem memory_store_roundtrip (m : gmap string MVal) (c : FolderChunk)
    (d : FolderDocument) (e : FolderEmbedding) (f : Z) (u : string) :
  (exists s', storeChunk c (Memory m) = Some s' /\
    getChunks s' f u = (if (Z.eqb f (folderId c) && String.eqb u (userId c))%bool
                        then getChunks (Memory m) f u ++ [c]
                        else getChunks (Memory m) f u) /\
    getDocuments s' f u = getDocuments (Memory m) f u /\
    getEmbeddings s' f u = getEmbeddings (Memory m) f u /\
    getKnowledgeGraph s' f u = getKnowledgeGraph (Memory m) f u) /\
  (exists s', storeDocument d (Memory m) = Some s' /\
    getDocuments s' f u = (if (Z.eqb f (docFolderId d) && String.eqb u (docUserId d))%bool
                           then getDocuments (Memory m) f u ++ [d]
                           else getDocuments (Memory m) f u) /\
    getChunks s' f u = getChunks (Memory m) f u /\
    getEmbeddings s' f u = getEmbeddings (Memory m) f u /\
    getKnowledgeGraph s' f u = getKnowledgeGraph (Memory m) f u) /\
  (exists s', storeEmbedding e (Memory m) = Some s' /\
    getEmbeddings s' f u = (if (Z.eqb f (embFolderId e) && String.eqb u (embUserId e))%bool
                            then getEmbeddings (Memory m) f u ++ [e]
                            else getEmbeddings (Memory m) f u) /\
    getDocuments s' f u = getDocuments (Memory m) f u /\
    getChunks s' f u = getChunks (Memory m) f u /\
    getKnowledgeGraph s' f u = getKnowledgeGraph (Memory m) f u).
Proof.
  split; [apply memory_storeChunk|].
  split; [apply memory_storeDocument|apply memory_storeEmbedding].
Qed.

(** In the IndexedDB back end, [storeChunk] fails exactly when a chunk with
    the same id is already stored, in any folder; otherwise the chunk becomes
    visible in its own scope and nowhere else. *)
Theorem idb_storeChunk (db : IDBState) (c : FolderChunk) :
  (storeChunk c (IndexedDB db) = None <->
   existsb (fun y => String.eqb (chunkId y) (chunkId c)) (folderChunks db) = true) /\
  (forall s', storeChunk c (IndexedDB db) = Some s' ->
   forall x f u, In x (getChunks s' f u) <->
     In x (getChunks (IndexedDB db) f u) \/ (x = c /\ folderId c = f /\ userId c = u)).
Proof.
  unfold storeChunk, idbAdd.
  destruct (existsb _ (folderChunks db)) eqn:E; simpl.
  - split; [tauto|]. intros s' H. discriminate.
  - split; [split; [discriminate|intros H; discriminate]|].
    intros s' H x f u. injection H as <-. simpl.
    rewrite !filter_In, in_app_iff. simpl.
    rewrite !andb_true_iff, !Z.eqb_eq, !String.eqb_eq. split.
    + intros [[Hx|[<-|[]]] Hs]; [left; tauto|right; tauto].
    + intros [[Hx Hs]|[-> [<- <-]]]; [tauto|]. auto.
Qed.

Lemma idb_storeChunk_witness :
  storeChunk RAGInputs.chunkA (IndexedDB (mkIDB [] [] [] []))
  = Some (IndexedDB (mkIDB [] [RAGInputs.chunkA] [] [])) /\
  forall x f u,
    In x (getChunks (IndexedDB (mkIDB [] [RAGInputs.chunkA] [] [])) f u) <->
    In x (getChunks (IndexedDB (mkIDB [] [] [] [])) f u) \/
    (x = RAGInputs.chunkA /\ folderId RAGInputs.chunkA = f /\
     userId RAGInputs.chunkA = u).
Proof.
  split; [reflexivity|].
  apply (proj2 (idb_storeChunk (mkIDB [] [] [] []) RAGInputs.chunkA)). reflexivity.
Defined.

Lemma lookup_delete_key (m : gmap string MVal) (p : string) (f f' : Z) (u u' : string) :
  delete (memKey p f u) m !! memKey p f' u'
  = (if (Z.eqb f' f && String.eqb u' u)%bool then None else m !! memKey p f' u').
Proof.
  destruct (Z.eqb f' f && String.eqb u' u)%bool eqn:E.
  - rewrite (proj2 (memKey_eq_iff p f f' u u') E). apply lookup_delete_eq.
  - apply lookup_delete_ne. intros H.
    pose proof (proj1 (memKey_eq_iff p f f' u u') H). congruence.
Qed.

(** The memory branch of [cleanupFolder] empties the four lists of the
    folder's scope and leaves every other scope as it was. *)
Theorem cleanupFolderMemory_scope (m : gmap string MVal) (f : Z) (u : string)
    (f' : Z) (u' : string) :
  let s' := Memory (cleanupFolderMemory m f u) in
  let same := (Z.eqb f' f && String.eqb u' u)%bool in
  getDocuments s' f' u' = (if same then [] else getDocuments (Memory m) f' u') /\
  getChunks s' f' u' = (if same then [] else getChunks (Memory m) f' u') /\
  getEmbeddings s' f' u' = (if same then [] else getEmbeddings (Memory m) f' u') /\
  getKnowledgeGraph s' f' u' = (if same then None else getKnowledgeGraph (Memory m) f' u').
Proof.
  cbv zeta. unfold cleanupFolderMemory. simpl fold_left.
  unfold getDocuments, getChunks, getEmbeddings, getKnowledgeGraph, memDocs,
    memChunks, memEmbs.
  repeat split.
  - rewrite !lookup_delete_ne by keys_ne. unfold docsKey.
    rewrite lookup_delete_key. destruct (_ && _)%bool; reflexivity.
  - rewrite (lookup_delete_ne _ (graphKey f u)) by keys_ne.
    rewrite (lookup_delete_ne _ (embeddingsKey f u)) by keys_ne.
    unfold chunksKey at 1. rewrite lookup_delete_key.
    rewrite lookup_delete_ne by keys_ne. destruct (_ && _)%bool; reflexivity.
  - rewrite (lookup_delete_ne _ (graphKey f u)) by keys_ne.
    unfold embeddingsKey at 1. rewrite lookup_delete_key.
    rewrite !lookup_delete_ne by keys_ne. destruct (_ && _)%bool; reflexivity.
  - unfold graphKey at 1. rewrite lookup_delete_key.
    rewrite !lookup_delete_ne by keys_ne. destruct (_ && _)%bool; reflexivity.
Qed.

(** Graph ids are [`${folderId}-graph`], without the user. In the IndexedDB
    back end, storing the graph of a document therefore removes the graph of
    every other user of the same folder id; the memory back end keys graphs
    by folder and user and keeps them. *)
Theorem graph_store_other_user (s : Backend) (d : FolderDocument)
    (cs : list FolderChunk) (u : string) :
  GraphFacts.graphIdsOk s = true -> u <> docUserId d ->
  getKnowledgeGraph (storeKnowledgeGraph (updateKnowledgeGraph d cs) s) (docFolderId d) u
  = match s with
    | Memory _ => getKnowledgeGraph s (docFolderId d) u
    | IndexedDB _ => None
    end.
Proof.
  intros Hok Hu. destruct s as [m|db]; simpl.
  - unfold graphKey. rewrite lookup_key.
    destruct (String.eqb u (docUserId d)) eqn:E.
    + apply String.eqb_eq in E. contradiction.
    + rewrite andb_false_r. reflexivity.
  - unfold idbPut. rewrite GraphFacts.updateKnowledgeGraph_id, List.filter_app.
    change (fun g => (Z.eqb (graphFolderId g) (docFolderId d)
                      && String.eqb (graphUserId g) u)%bool)
      with (GraphFacts.inScope (docFolderId d) u).
    rewrite (GraphFacts.scope_filter_after_put _ _ _ Hok). simpl.
    unfold GraphFacts.inScope; simpl. rewrite Z.eqb_refl.
    destruct (String.eqb (docUserId d) u) eqn:E; [|reflexivity].
    apply String.eqb_eq in E. congruence.
Qed.

Lemma graph_store_other_user_witness :
  let s := storeKnowledgeGraph (updateKnowledgeGraph RAGInputs.docA [])
             (IndexedDB (mkIDB [] [] [] [])) in
  let d := mkDoc "doc-c" 1 "user-2" "c.txt" "text" "charlie" in
  (GraphFacts.graphIdsOk s = true /\ "user-1"%string <> docUserId d) /\
  getKnowledgeGraph s 1 "user-1" <> None /\
  getKnowledgeGraph (storeKnowledgeGraph (updateKnowledgeGraph d []) s)
    (docFolderId d) "user-1" = None.
Proof.
  cbv zeta. split; [split; [reflexivity|discriminate]|].
  split; [discriminate|].
  exact (graph_store_other_user
           (storeKnowledgeGraph (updateKnowledgeGraph RAGInputs.docA [])
              (IndexedDB (mkIDB [] [] [] [])))
           (mkDoc "doc-c" 1 "user-2" "c.txt" "text" "charlie") [] "user-1"
           eq_refl ltac:(discriminate)).
Defined.

End StoreFacts.

(** ** Chunk records and the ingest pipeline *)
Module IngestFacts.
Import Model Store Chunker Graph Ingest.

Definition ofDoc (newId : nat -> string) (d : FolderDocument) (c : FolderChunk) : Prop :=
  chunkId c = newId (chunkIndex c) /\ documentId c = docId d /\
  folderId c = docFolderId d /\ userId c = docUserId d /\
  documentName c = docName d /\ documentType c = docType d.

Definition chunkScope (f : Z) (u : string) (c : FolderChunk) : bool :=
  (Z.eqb f (folderId c) && String.eqb u (userId c))%bool.

Definition embScope (f : Z) (u : string) (e : FolderEmbedding) : bool :=
  (Z.eqb f (embFolderId e) && String.eqb u (embUserId e))%bool.

Lemma mkFolderChunk_ofDoc (newId : nat -> string) (d : FolderDocument) (cur : string)
    (st : Z) (i : nat) :
  ofDoc newId d (mkFolderChunk newId d cur st i).
Proof. unfold ofDoc. simpl. repeat split. Qed.

Lemma chunkLoop_inv (newId : nat -> string) (d : FolderDocument)
    (sentences rest : list string) :
  forall cur idx st chunks,
  map chunkIndex chunks = seq 0 idx -> Forall (ofDoc newId d) chunks ->
  match chunkLoop newId d sentences rest cur idx st chunks with
  | (_, idx', _, acc') => map chunkIndex acc' = seq 0 idx' /\ Forall (ofDoc newId d) acc'
  end.
Proof.
  induction rest as [|s rest IH]; intros cur idx st chunks Hm Hf; simpl; [auto|].
  destruct (_ && _)%bool; apply IH; auto.
  - rewrite map_app, Hm, seq_S. reflexivity.
  - apply Forall_app. split; [exact Hf|].
    constructor; [apply mkFolderChunk_ofDoc|constructor].
Qed.

Lemma chunkDocument_inv (newId : nat -> string) (d : FolderDocument) :
  map chunkIndex (chunkDocument newId d) = seq 0 (length (chunkDocument newId d)) /\
  Forall (ofDoc newId d) (chunkDocument newId d).
Proof.
  unfold chunkDocument.
  pose proof (chunkLoop_inv newId d (splitIntoSentences (docContent d))
                (splitIntoSentences (docContent d)) "" 0 0%Z [] eq_refl
                ltac:(constructor)) as H.
  destruct (chunkLoop _ _ _ _ _ _ _ _) as [[[cur idx] st] acc].
  destruct H as [Hm Hf].
  assert (Hl : length acc = idx).
  { rewrite <- (length_map chunkIndex acc), Hm. apply length_seq. }
  destruct (_ && _)%bool.
  - rewrite map_app, Hm, length_app, Hl. cbn [length map].
    rewrite Nat.add_1_r, seq_S. split; [reflexivity|].
    apply Forall_app. split; [exact Hf|].
    constructor; [apply mkFolderChunk_ofDoc|constructor].
  - rewrite Hl. auto.
Qed.

(** [chunkDocument] numbers its chunks 0, 1, 2, ... in order, takes each
    chunk id from the index, and copies the document id, folder, user, name
    and type of the document into every chunk. *)
Theorem chunkDocument_fields (newId : nat -> string) (d : FolderDocument) :
  map chunkIndex (chunkDocument newId d) = seq 0 (length (chunkDocument newId d)) /\
  forall c, In c (chunkDocument newId d) ->
    chunkId c = newId (chunkIndex c) /\ documentId c = docId d /\
    folderId c = docFolderId d /\ userId c = docUserId d /\
    documentName c = docName d /\ documentType c = docType d.
Proof.
  destruct (chunkDocument_inv newId d) as [H1 H2]. split; [exact H1|].
  rewrite List.Forall_forall in H2. exact H2.
Qed.

Lemma filter_all {A} (p : A -> bool) (l : list A) (b : bool) :
  Forall (fun x => p x = b) l -> List.filter p l = if b then l else [].
Proof.
  induction 1 as [|x l Hx _ IH]; [destruct b; reflexivity|].
  simpl. rewrite Hx, IH. destruct b; reflexivity.
Qed.

Lemma storeChunks_memory (cs : list FolderChunk) :
  forall m, exists m', storeChunks cs (Memory m) = (Memory m', true) /\
  forall f u,
    getChunks (Memory m') f u = getChunks (Memory m) f u ++ List.filter (chunkScope f u) cs /\
    getDocuments (Memory m') f u = getDocuments (Memory m) f u /\
    getEmbeddings (Memory m') f u = getEmbeddings (Memory m) f u /\
    getKnowledgeGraph (Memory m') f u = getKnowledgeGraph (Memory m) f u.
Proof.
  induction cs as [|c cs IH]; intros m.
  - exists m. split; [reflexivity|]. intros f u. cbn [List.filter].
    rewrite app_nil_r. repeat split.
  - destruct (StoreFacts.memory_storeChunk m c 0 "") as ([m1|db] & E & _);
      [|simpl in E; discriminate E].
    destruct (IH m1) as (m' & Hs & Hg). exists m'. split.
    + cbn [storeChunks]. rewrite E. exact Hs.
    + intros f u.
      destruct (StoreFacts.memory_storeChunk m c f u) as (s1 & E' & H1 & H2 & H3 & H4).
      rewrite E in E'. injection E' as <-.
      destruct (Hg f u) as (G1 & G2 & G3 & G4).
      rewrite G1, G2, G3, G4, H1, H2, H3, H4.
      cbn [List.filter].
      change (chunkScope f u c) with (Z.eqb f (folderId c) && String.eqb u (userId c))%bool.
      destruct (_ && _)%bool; [rewrite <- app_assoc|]; repeat split.
Qed.

Lemma genEmb_memory (embed : FolderChunk -> list R) (cs : list FolderChunk) :
  forall m, exists m', generateEmbeddingsForChunks embed cs (Memory m) = Memory m' /\
  forall f u,
    getEmbeddings (Memory m') f u = getEmbeddings (Memory m) f u
      ++ List.filter (embScope f u) (map (fun c => embeddingOf c (embed c)) cs) /\
    getDocuments (Memory m') f u = getDocuments (Memory m) f u /\
    getChunks (Memory m') f u = getChunks (Memory m) f u /\
    getKnowledgeGraph (Memory m') f u = getKnowledgeGraph (Memory m) f u.
Proof.
  induction cs as [|c cs IH]; intros m.
  - exists m. split; [reflexivity|]. intros f u. cbn [List.filter map].
    rewrite app_nil_r. repeat split.
  - destruct (StoreFacts.memory_storeEmbedding m (embeddingOf c (embed c)) 0 "")
      as ([m1|db] & E & _); [|simpl in E; discriminate E].
    destruct (IH m1) as (m' & Hs & Hg). exists m'. split.
    + cbn [generateEmbeddingsForChunks]. rewrite E. exact Hs.
    + intros f u.
      destruct (StoreFacts.memory_storeEmbedding m (embeddingOf c (embed c)) f u)
        as (s1 & E' & H1 & H2 & H3 & H4).
      rewrite E in E'. injection E' as <-.
      destruct (Hg f u) as (G1 & G2 & G3 & G4).
      rewrite G1, G2, G3, G4, H1, H2, H3, H4.
      cbn [List.filter map].
      change (embScope f u (embeddingOf c (embed c))) with
        (Z.eqb f (embFolderId (embeddingOf c (embed c)))
         && String.eqb u (embUserId (embeddingOf c (embed c))))%bool.
      destruct (_ && _)%bool; [rewrite <- app_assoc|]; repeat split.
Qed.

(** With the memory back end, [addDocument] followed by the
    [processDocumentAsync] it starts appends the document, all its chunks and
    one embedding per chunk to the lists of the document's folder and user,
    and stores the document's graph there; every other folder and user
    reads back as before. *)
Theorem ingest_memory (newUuid : string) (newId : nat -> string)
    (embed : FolderChunk -> list R) (f : Z) (u : string) (file : TextFile)
    (m : gmap string MVal) :
  exists d s1, addDocument newUuid f u file (Memory m) = Some (d, s1) /\
  forall f' u',
    let same := (Z.eqb f' f && String.eqb u' u)%bool in
    let cs := chunkDocument newId d in
    let s2 := processDocumentAsync newId embed d s1 in
    getDocuments s2 f' u' = (if same then getDocuments (Memory m) f' u' ++ [d]
                             else getDocuments (Memory m) f' u') /\
    getChunks s2 f' u' = (if same then getChunks (Memory m) f' u' ++ cs
                          else getChunks (Memory m) f' u') /\
    getEmbeddings s2 f' u' =
      (if same then getEmbeddings (Memory m) f' u'
                      ++ map (fun c => embeddingOf c (embed c)) cs
       else getEmbeddings (Memory m) f' u') /\
    getKnowledgeGraph s2 f' u' = (if same then Some (updateKnowledgeGraph d cs)
                                  else getKnowledgeGraph (Memory m) f' u').
Proof.
  pose (d := mkDoc newUuid f u (fileName file)
               (getDocumentType (fileName file) (fileContent file)) (fileContent file)).
  assert (Hdf : docFolderId d = f) by reflexivity.
  assert (Hdu : docUserId d = u) by reflexivity.
  destruct (StoreFacts.memory_storeDocument m d 0 "") as ([m1|db] & E & _);
    [|simpl in E; discriminate E].
  exists d, (Memory m1). split.
  { unfold addDocument. cbv zeta. change (storeDocument d (Memory m) ≫= (fun s' => Some (d, s'))
      = Some (d, Memory m1)). rewrite E. reflexivity. }
  intros f' u'. cbv zeta.
  destruct (chunkDocument_inv newId d) as [_ Hof]. rewrite List.Forall_forall in Hof.
  destruct (storeChunks_memory (chunkDocument newId d) m1) as (m2 & Hs & Hc).
  destruct (genEmb_memory embed (chunkDocument newId d) m2) as (m3 & He & Hemb).
  assert (Hp : processDocumentAsync newId embed d (Memory m1)
               = storeKnowledgeGraph (updateKnowledgeGraph d (chunkDocument newId d))
                   (Memory m3)).
  { unfold processDocumentAsync. cbv zeta. rewrite Hs. cbv beta iota.
    rewrite He. reflexivity. }
  rewrite Hp.
  destruct (StoreFacts.memory_storeGraph m3 (updateKnowledgeGraph d (chunkDocument newId d))
              f' u') as (G1 & G2 & G3 & G4).
  rewrite G1, G2, G3, G4.
  destruct (Hemb f' u') as (E1 & E2 & E3 & E4). rewrite E1, E2, E3, E4.
  destruct (Hc f' u') as (C1 & C2 & C3 & C4). rewrite C1, C2, C3, C4.
  destruct (StoreFacts.memory_storeDocument m d f' u') as (s1 & E' & D1 & D2 & D3 & D4).
  rewrite E in E'. injection E' as <-. rewrite D1, D2, D3, D4.
  change (graphFolderId (updateKnowledgeGraph d (chunkDocument newId d))) with f.
  change (graphUserId (updateKnowledgeGraph d (chunkDocument newId d))) with u.
  rewrite Hdf, Hdu.
  assert (Fc : Forall (fun c => chunkScope f' u' c = (Z.eqb f' f && String.eqb u' u)%bool)
                 (chunkDocument newId d)).
  { apply List.Forall_forall. intros c Hin. destruct (Hof c Hin) as (_ & _ & Hf & Hu & _).
    unfold chunkScope. rewrite Hf, Hu, Hdf, Hdu. reflexivity. }
  assert (Fe : Forall (fun e => embScope f' u' e = (Z.eqb f' f && String.eqb u' u)%bool)
                 (map (fun c => embeddingOf c (embed c)) (chunkDocument newId d))).
  { apply List.Forall_forall. intros e Hin. apply in_map_iff in Hin as (c & <- & Hin).
    destruct (Hof c Hin) as (_ & _ & Hf & Hu & _).
    unfold embScope, embeddingOf. cbn [embFolderId embUserId].
    rewrite Hf, Hu, Hdf, Hdu. reflexivity. }
  rewrite (filter_all _ _ _ Fc), (filter_all _ _ _ Fe).
  destruct (Z.eqb f' f && String.eqb u' u)%bool; rewrite ?app_nil_r; repeat split.
Qed.

End IngestFacts.

(** ** Text helpers: sentences, concepts, graph edges, document types *)
Module TextFacts.
Import Model Chunker Graph Ingest.

Lemma list_ascii_app (a b : string) :
  list_ascii_of_string (a +:+ b) = list_ascii_of_string a ++ list_ascii_of_string b.
Proof. induction a as [|c a IH]; [reflexivity|]. exact (f_equal (cons c) IH). Qed.

Lemma toLowerCase_app (a b : string) :
  toLowerCase (a +:+ b) = (toLowerCase a +:+ toLowerCase b)%string.
Proof.
  induction a as [|c a IH]; [reflexivity|]. exact (f_equal (String (lowerChar c)) IH).
Qed.

Lemma lowerChar_idem (c : ascii) : lowerChar (lowerChar c) = lowerChar c.
Proof.
  destruct c as [b0 b1 b2 b3 b4 b5 b6 b7].
  destruct b0, b1, b2, b3, b4, b5, b6, b7; reflexivity.
Qed.

Lemma lowerChar_dot (c : ascii) : lowerChar c = "."%char -> c = "."%char.
Proof.
  destruct c as [b0 b1 b2 b3 b4 b5 b6 b7].
  destruct b0, b1, b2, b3, b4, b5, b6, b7; intros H; vm_compute in H;
    first [reflexivity | discriminate H].
Qed.

Lemma toLowerCase_fixed (t : string) :
  forallb (fun c => Ascii.eqb (lowerChar c) c) (list_ascii_of_string (toLowerCase t)) = true.
Proof.
  induction t as [|c t IH]; [reflexivity|]. cbn. rewrite IH, lowerChar_idem.
  rewrite Ascii.eqb_refl. reflexivity.
Qed.

Lemma splitNonWordGo_chars (s : string) :
  forall cur b,
  forallb (fun c => isWordChar c && Ascii.eqb (lowerChar c) c)
    (list_ascii_of_string cur) = true ->
  forallb (fun c => Ascii.eqb (lowerChar c) c) (list_ascii_of_string s) = true ->
  forall w, In w (splitNonWordGo s cur b) ->
  forallb (fun c => isWordChar c && Ascii.eqb (lowerChar c) c)
    (list_ascii_of_string w) = true.
Proof.
  induction s as [|c s IH]; intros cur b Hcur Hs w Hw.
  - destruct b; simpl in Hw; destruct Hw as [<-|Hw]; auto;
      destruct Hw as [<-|[]]; reflexivity.
  - cbn in Hs. apply andb_true_iff in Hs as [Hc Hs]. cbn in Hw.
    destruct (isWordChar c) eqn:Ew.
    + destruct b.
      * destruct Hw as [<-|Hw]; [exact Hcur|].
        apply (IH (String c "") false) with (w := w); auto. cbn. rewrite Ew, Hc. reflexivity.
      * apply (IH (cur +:+ String c "") false) with (w := w); auto.
        rewrite list_ascii_app, forallb_app, Hcur. cbn. rewrite Ew, Hc. reflexivity.
    + exact (IH cur true Hcur Hs w Hw).
Qed.

Lemma dedupGo_spec (seen xs : list string) :
  NoDup (dedupGo seen xs) /\
  forall w, In w (dedupGo seen xs) -> In w xs /\ ~ In w seen.
Proof.
  revert seen. induction xs as [|x xs IH]; intros seen; simpl.
  - split; [constructor|]. intros w [].
  - destruct (existsb (String.eqb x) seen) eqn:E.
    + destruct (IH seen) as [Hn Hm]. split; [exact Hn|].
      intros w Hw. destruct (Hm w Hw). auto.
    + destruct (IH (x :: seen)) as [Hn Hm]. split.
      * constructor; [|exact Hn]. intros Hx. apply list_elem_of_In in Hx.
        destruct (Hm x Hx) as [_ Hx'].
        apply Hx'. left. reflexivity.
      * intros w [<-|Hw].
        -- split; [left; reflexivity|]. intros Hin.
           assert (existsb (String.eqb x) seen = true) as Ht.
           { apply existsb_exists. exists x. split; [exact Hin|apply String.eqb_refl]. }
           congruence.
        -- destruct (Hm w Hw) as [H1 H2]. split; [right; exact H1|].
           intros Hin. apply H2. right. exact Hin.
Qed.

Lemma In_take_list {A} (n : nat) (l : list A) (x : A) : In x (take n l) -> In x l.
Proof.
  revert n. induction l as [|y l IH]; intros [|n] Hin; simpl in Hin; try contradiction.
  destruct Hin as [<-|Hin]; [left; reflexivity|right; exact (IH n Hin)].
Qed.

Lemma NoDup_take_list {A} (n : nat) (l : list A) : NoDup l -> NoDup (take n l).
Proof.
  revert n. induction l as [|x l IH]; intros n Hl; [destruct n; constructor|].
  destruct n as [|n]; [constructor|]. simpl.
  inversion Hl as [|? ? Hx Hl']. constructor; [|exact (IH n Hl')].
  intros Hin. apply Hx. apply list_elem_of_In in Hin. apply list_elem_of_In.
  exact (In_take_list n l x Hin).
Qed.


(** [extractConcepts] returns at most five distinct words; each is longer
    than four characters, is not a stop word, and is made of word characters
    ([\w]) with no upper-case letter. *)
Theorem extractConcepts_shape (text : string) :
  (length (extractConcepts text) <= 5)%nat /\ NoDup (extractConcepts text) /\
  forall w, In w (extractConcepts text) ->
    (4 < String.length w)%nat /\ ~ In w stopWords /\
    forallb (fun c => isWordChar c && Ascii.eqb (lowerChar c) c)
      (list_ascii_of_string w) = true.
Proof.
  unfold extractConcepts. cbv zeta. split; [apply firstn_le_length|].
  split; [apply NoDup_take_list, dedupGo_spec|].
  intros w Hw. apply In_take_list in Hw.
  destruct (proj2 (dedupGo_spec [] _) w Hw) as [Hf _].
  apply filter_In in Hf as [Hin Hc]. apply andb_true_iff in Hc as [Hl Hs].
  apply Nat.ltb_lt in Hl. split; [exact Hl|]. split.
  - intros Hst. assert (existsb (String.eqb w) stopWords = true) as Ht.
    { apply existsb_exists. exists w. split; [exact Hst|apply String.eqb_refl]. }
    rewrite Ht in Hs. discriminate.
  - exact (splitNonWordGo_chars (toLowerCase text) "" false eq_refl
             (toLowerCase_fixed text) w Hin).
Qed.

(** The graph built by [updateKnowledgeGraph] has one node more than it has
    edges (the document node); every edge goes from the document to a
    concept node of the graph, with type "contains" and weight 0.8. *)
Theorem updateKnowledgeGraph_edges (d : FolderDocument) (cs : list FolderChunk) :
  length (nodes (updateKnowledgeGraph d cs)) = S (length (edges (updateKnowledgeGraph d cs))) /\
  forall e, In e (edges (updateKnowledgeGraph d cs)) ->
    sourceId e = docId d /\ edgeType e = "contains"%string /\ weight e = (8/10)%R /\
    exists n, In n (nodes (updateKnowledgeGraph d cs)) /\
      nodeId n = targetId e /\ nodeType n = "concept"%string.
Proof.
  unfold updateKnowledgeGraph. cbn [nodes edges]. split.
  - cbn [length]. f_equal. induction cs as [|c cs IH]; cbn [flat_map]; [reflexivity|].
    rewrite !length_app, IH. unfold conceptNodes, conceptEdges. rewrite !length_map.
    reflexivity.
  - intros e He. apply in_flat_map in He as (c & Hc & He).
    unfold conceptEdges in He. apply in_map_iff in He as (k & <- & Hk). cbn.
    split; [reflexivity|]. split; [reflexivity|]. split; [reflexivity|].
    exists (mkNode (conceptNodeId c k) "concept" k k [docId d] [chunkId c]).
    split; [|split; reflexivity]. right. apply in_flat_map. exists c.
    split; [exact Hc|]. unfold conceptNodes. apply in_map_iff. exists k. auto.
Qed.

Lemma splitCharGo_nosep (sep : ascii) (s : string) :
  forall cur,
  forallb (fun c => negb (Ascii.eqb c sep)) (list_ascii_of_string s) = true ->
  splitCharGo sep s cur = [(cur +:+ s)%string].
Proof.
  induction s as [|c s IH]; intros cur H.
  - cbn. rewrite ContextExtraFacts.str_app_nil_r. reflexivity.
  - cbn in H. apply andb_true_iff in H as [Hc H]. cbn.
    destruct (ascii_dec c sep) as [->|_].
    + rewrite Ascii.eqb_refl in Hc. discriminate.
    + rewrite (IH _ H), ChunkerFacts.str_app_assoc. reflexivity.
Qed.

Lemma splitCharGo_sep (sep : ascii) (s1 s2 : string) :
  forall cur, exists l,
  splitCharGo sep (s1 +:+ String sep s2) cur = l ++ splitCharGo sep s2 "".
Proof.
  induction s1 as [|c s1 IH]; intros cur; simpl.
  - destruct (ascii_dec sep sep) as [_|Hn]; [|contradiction].
    exists [cur]. reflexivity.
  - destruct (ascii_dec c sep).
    + destruct (IH "") as [l ->]. exists (cur :: l). reflexivity.
    + apply IH.
Qed.

Lemma toLowerCase_nodot (s : string) :
  forallb (fun c => negb (Ascii.eqb c ".")) (list_ascii_of_string s) = true ->
  forallb (fun c => negb (Ascii.eqb c ".")) (list_ascii_of_string (toLowerCase s)) = true.
Proof.
  induction s as [|c s IH]; [auto|]. cbn. intros H.
  apply andb_true_iff in H as [Hc H]. rewrite (IH H), andb_true_r.
  destruct (Ascii.eqb (lowerChar c) ".") eqn:E; [|reflexivity].
  apply Ascii.eqb_eq, lowerChar_dot in E. subst c. discriminate.
Qed.

(** [getDocumentType] looks only at what follows the last dot of the file
    name: a name ending in ["." ++ ext], with no dot in [ext], has the type
    of [ext] alone, whatever comes before and in any letter case. *)
Theorem getDocumentType_extension (name ext content : string) :
  forallb (fun c => negb (Ascii.eqb c ".")) (list_ascii_of_string ext) = true ->
  getDocumentType (name +:+ "." +:+ ext) content = getDocumentType ext content.
Proof.
  intros H. unfold getDocumentType, splitChar. rewrite toLowerCase_app.
  change (toLowerCase ("." +:+ ext)) with (String "." (toLowerCase ext)).
  destruct (splitCharGo_sep "." (toLowerCase name) (toLowerCase ext) "") as [l ->].
  rewrite (splitCharGo_nosep _ _ _ (toLowerCase_nodot ext H)), last_snoc.
  reflexivity.
Qed.

Lemma getDocumentType_extension_witness :
  forallb (fun c => negb (Ascii.eqb c ".")) (list_ascii_of_string "PDF") = true /\
  getDocumentType ("report.v2" +:+ "." +:+ "PDF") "" = getDocumentType "PDF" "" /\
  getDocumentType "PDF" "" = "pdf"%string.
Proof.
  split; [reflexivity|]. split; [|reflexivity].
  apply (getDocumentType_extension "report.v2" "PDF" ""). reflexivity.
Defined.

Lemma splitGo_nopunct (s : string) :
  match splitGo s with
  | (p, ps) => Forall (fun w => forallb (fun c => negb (isPunct c))
                                  (list_ascii_of_string w) = true) (p :: ps)
  end.
Proof.
  induction s as [|c s IH]; [repeat constructor|]. cbn [splitGo].
  revert IH. destruct (splitGo s) as [p ps]. intros IH.
  destruct (isPunct c) eqn:Ec.
  - destruct s as [|c' s'].
    + constructor; [reflexivity|exact IH].
    + destruct (isPunct c'); [exact IH|constructor; [reflexivity|exact IH]].
  - inversion IH as [|? ? Hp Hps]. constructor; [|exact Hps].
    cbn. rewrite Ec, Hp. reflexivity.
Qed.

(** Every piece returned by [splitIntoSentences] is non-blank and contains
    none of the separators '.', '!' and '?'. *)
Theorem splitIntoSentences_pieces (text s : string) :
  In s (splitIntoSentences text) ->
  JS.trim s <> ""%string /\
  forallb (fun c => negb (isPunct c)) (list_ascii_of_string s) = true.
Proof.
  unfold splitIntoSentences, splitPunct. intros Hs.
  apply filter_In in Hs as [Hin Hne]. pose proof (splitGo_nopunct text) as Hp.
  destruct (splitGo text) as [p ps]. rewrite List.Forall_forall in Hp.
  split; [|exact (Hp s Hin)].
  intros Ht. rewrite Ht in Hne. discriminate.
Qed.

Lemma splitIntoSentences_pieces_witness :
  In "Hello world"%string (splitIntoSentences "Hello world. Bye!") /\
  JS.trim "Hello world" <> ""%string /\
  forallb (fun c => negb (isPunct c)) (list_ascii_of_string "Hello world") = true.
Proof.
  split; [left; reflexivity|].
  apply (splitIntoSentences_pieces "Hello world. Bye!" "Hello world").
  left. reflexivity.
Defined.

End TextFacts.

(** ** Bounds of the cosine similarity and ranking of the search results *)
Module RankFacts.
Import Model Store Similarity Search.
Local Open Scope R_scope.








Definition desc (x y : ScoredId) : Prop := similarity y <= similarity x.

Lemma desc_trans (x y z : ScoredId) : desc x y -> desc y z -> desc x z.
Proof. unfold desc. lra. Qed.

Lemma insertDesc_hd (x z : ScoredId) (l : list ScoredId) :
  HdRel desc z l -> desc z x -> HdRel desc z (insertDesc x l).
Proof.
  destruct l as [|y l]; simpl; intros Hz Hx.
  - constructor. exact Hx.
  - destruct (Rlt_dec _ _); constructor; [exact Hx|]. inversion Hz. assumption.
Qed.

Lemma insertDesc_sorted (x : ScoredId) (l : list ScoredId) :
  Sorted desc l -> Sorted desc (insertDesc x l).
Proof.
  induction l as [|y l IH]; simpl; intros Hs.
  - repeat constructor.
  - inversion Hs as [|? ? Hl Hy]; subst.
    destruct (Rlt_dec (similarity y) (similarity x)) as [Hlt|Hge].
    + constructor; [exact Hs|]. constructor. unfold desc. lra.
    + constructor; [exact (IH Hl)|]. apply insertDesc_hd; [exact Hy|].
      unfold desc. apply Rnot_lt_le. exact Hge.
Qed.

Lemma insertDesc_length (x : ScoredId) (l : list ScoredId) :
  length (insertDesc x l) = S (length l).
Proof.
  induction l as [|y l IH]; simpl; [reflexivity|].
  destruct (Rlt_dec _ _); simpl; [reflexivity|]. rewrite IH. reflexivity.
Qed.

Lemma sortDesc_sorted (l : list ScoredId) :
  Sorted desc (sortDesc l) /\ length (sortDesc l) = length l.
Proof.
  unfold sortDesc.
  cut (forall acc, Sorted desc acc ->
       Sorted desc (fold_left (fun acc x => insertDesc x acc) l acc) /\
       length (fold_left (fun acc x => insertDesc x acc) l acc)
       = (length acc + length l)%nat).
  { intros H. exact (H [] ltac:(constructor)). }
  induction l as [|x l IH]; intros acc Hs; simpl; [split; [exact Hs|lia]|].
  destruct (IH (insertDesc x acc) (insertDesc_sorted x acc Hs)) as [H1 H2].
  split; [exact H1|]. rewrite H2, insertDesc_length. lia.
Qed.

Lemma take_sorted (n : nat) (l : list ScoredId) :
  Sorted desc l -> Sorted desc (take n l).
Proof.
  revert n. induction l as [|x l IH]; intros [|n] Hs; simpl; [constructor..|].
  inversion Hs as [|? ? Hl Hx]; subst. constructor; [exact (IH n Hl)|].
  destruct n as [|n]; [constructor|]. destruct l as [|y l]; [constructor|].
  simpl. inversion Hx. constructor. assumption.
Qed.

Lemma omap_sorted (g : ScoredId -> option (FolderChunk * R)) (l : list ScoredId) :
  (forall r p, g r = Some p -> snd p = similarity r) ->
  StronglySorted desc l ->
  StronglySorted (fun p q => snd q <= snd p) (omap g l).
Proof.
  intros Hg. induction l as [|x l IH]; simpl; intros Hs; [constructor|].
  inversion Hs as [|? ? Hl Hx]; subst.
  destruct (g x) as [p|] eqn:E; [|exact (IH Hl)].
  constructor; [exact (IH Hl)|]. apply List.Forall_forall. intros q Hq.
  destruct (SearchFacts.in_omap g l q Hq) as (x' & Hx' & E').
  rewrite (Hg _ _ E), (Hg _ _ E').
  rewrite List.Forall_forall in Hx. exact (Hx x' Hx').
Qed.

Lemma omap_length_le {A B} (g : A -> option B) (l : list A) :
  (length (omap g l) <= length l)%nat.
Proof.
  induction l as [|x l IH]; [apply le_n|].
  change (omap g (x :: l)) with
    (match g x with Some y => y :: omap g l | None => omap g l end).
  destruct (g x); cbn [length]; lia.
Qed.

(** The pairs returned by [searchSimilarContent] come in non-increasing
    order of similarity; there are never more of them than embeddings in
    the scope, and never more than [limit] when [limit] is not negative. *)
Theorem searchSimilarContent_ranked (s : Backend) (q : list R) (f : Z) (u : string)
    (limit : Z) :
  StronglySorted (fun p r => snd r <= snd p) (searchSimilarContent s q f u limit) /\
  (length (searchSimilarContent s q f u limit) <= length (getEmbeddings s f u))%nat /\
  ((0 <= limit)%Z -> (length (searchSimilarContent s q f u limit) <= Z.to_nat limit)%nat).
Proof.
  unfold searchSimilarContent. cbv zeta.
  set (sims := map (fun e => mkScored (embId e) (cosineSimilarity q (vector e)))
                 (getEmbeddings s f u)).
  destruct (sortDesc_sorted sims) as [Hs Hl].
  assert (Hsl : Sorted desc (jsSlice0 (sortDesc sims) limit)).
  { unfold jsSlice0. destruct (limit <? 0)%Z; apply take_sorted; exact Hs. }
  split; [|split].
  - apply omap_sorted.
    + intros r p Hr. cbv beta in Hr.
      destruct (List.find (fun c => String.eqb (chunkId c) (scChunkId r))
                  (getChunks s f u)) as [c|].
      * injection Hr as <-. reflexivity.
      * discriminate Hr.
    + apply Sorted_StronglySorted; [exact desc_trans|exact Hsl].
  - etransitivity; [apply omap_length_le|].
    unfold jsSlice0. destruct (limit <? 0)%Z;
      rewrite length_take, Hl; unfold sims; rewrite length_map; lia.
  - intros Hlim. etransitivity; [apply omap_length_le|].
    unfold jsSlice0. replace (limit <? 0)%Z with false by (symmetry; apply Z.ltb_ge; lia).
    apply firstn_le_length.
Qed.

Lemma searchSimilarContent_ranked_witness :
  (0 <= 1)%Z /\
  (length (searchSimilarContent RAGInputs.twoStore RAGInputs.queryX 1 "user-1" 1)
   <= Z.to_nat 1)%nat.
Proof.
  split; [lia|].
  apply (proj2 (proj2 (searchSimilarContent_ranked RAGInputs.twoStore RAGInputs.queryX
                         1 "user-1" 1))). lia.
Defined.

End RankFacts.

(** ** What [buildContextForQuery] puts in the context *)
Module QueryFacts.
Import Model Store Search.

Definition block (c : FolderChunk) : string :=
  (nl +:+ "--- " +:+ documentName c +:+ " ---" +:+ nl +:+ content c +:+ nl)%string.

Fixpoint blocks (rs : list (FolderChunk * R)) : string :=
  match rs with
  | [] => EmptyString
  | (c, _) :: rs' => (block c +:+ blocks rs')%string
  end.

Fixpoint sumTokens (rs : list (FolderChunk * R)) : Z :=
  match rs with
  | [] => 0%Z
  | (c, _) :: rs' => (tokenCount c + sumTokens rs')%Z
  end.

Lemma sublist_In {A} (l1 l2 : list A) (x : A) : sublist l1 l2 -> In x l1 -> In x l2.
Proof.
  induction 1 as [|y l1 l2 _ IH|y l1 l2 _ IH]; simpl; [tauto| |]; intuition.
Qed.

Lemma accumulate_spec (maxTokens : Z) (rs : list (FolderChunk * R)) :
  forall context totalTokens, exists S,
  sublist S rs /\ (forall p, In p S -> (7/10 < snd p)%R) /\
  (S = [] \/ (totalTokens + sumTokens S <= maxTokens)%Z) /\
  accumulate maxTokens rs context totalTokens = (context +:+ blocks S)%string.
Proof.
  induction rs as [|[c sim] rs IH]; intros context total; simpl.
  - exists []. split; [constructor|]. split; [intros p []|].
    split; [left; reflexivity|]. symmetry. apply ContextExtraFacts.str_app_nil_r.
  - destruct (maxTokens <? total + tokenCount c)%Z eqn:Eb.
    + exists []. split; [apply sublist_nil_l|]. split; [intros p []|].
      split; [left; reflexivity|]. symmetry. apply ContextExtraFacts.str_app_nil_r.
    + apply Z.ltb_ge in Eb. destruct (Rlt_dec (7/10) sim) as [Hs|Hs].
      * destruct (IH (context +:+ block c)%string (total + tokenCount c)%Z)
          as (S & Hsub & Hsim & Htok & Heq).
        exists ((c, sim) :: S). split; [apply sublist_skip; exact Hsub|].
        split; [intros p [<-|Hp]; [exact Hs|exact (Hsim p Hp)]|].
        split.
        -- right. simpl. destruct Htok as [->|Htok]; simpl; lia.
        -- unfold block in Heq. rewrite Heq. simpl.
           rewrite ChunkerFacts.str_app_assoc. reflexivity.
      * destruct (IH context total) as (S & Hsub & Hsim & Htok & Heq).
        exists S. split; [apply sublist_cons; exact Hsub|]. auto.
Qed.

(** For a reachable store, the context built by [buildContextForQuery] is
    the trimmed concatenation of the blocks of some of the (at most ten)
    search results, kept in their order: each has a similarity above 0.7
    and a chunk of the queried scope, and their token counts add up to at
    most [maxTokens] (or none is kept). *)
Theorem buildContextForQuery_selected (s : Backend) (q : list R) (f : Z) (u : string)
    (maxTokens : Z) :
  reachable s ->
  exists S, sublist S (searchSimilarContent s q f u 10) /\
    (forall c sim, In (c, sim) S ->
       (7/10 < sim)%R /\ folderId c = f /\ userId c = u) /\
    (S = [] \/ (sumTokens S <= maxTokens)%Z) /\
    buildContextForQuery s q f u maxTokens = JS.trim (blocks S).
Proof.
  intros Hr. unfold buildContextForQuery.
  destruct (accumulate_spec maxTokens (searchSimilarContent s q f u 10) "" 0)
    as (S & Hsub & Hsim & Htok & Heq).
  exists S. split; [exact Hsub|]. split; [|split; [exact Htok|rewrite Heq; reflexivity]].
  intros c sim Hin. split; [exact (Hsim _ Hin)|].
  pose proof (sublist_In _ _ _ Hsub Hin) as Hin'.
  unfold searchSimilarContent in Hin'.
  apply SearchFacts.in_omap in Hin' as [r [_ Hg]].
  destruct (List.find _ _) as [c'|] eqn:E; [|discriminate].
  injection Hg as <- _. apply find_some in E as [Hc _].
  exact (SearchFacts.getChunks_scoped s f u c' Hr Hc).
Qed.

Lemma buildContextForQuery_selected_witness :
  reachable RAGInputs.twoStore /\
  exists S, sublist S (searchSimilarContent RAGInputs.twoStore RAGInputs.queryX 1 "user-1" 10) /\
    (forall c sim, In (c, sim) S -> (7/10 < sim)%R /\ folderId c = 1%Z /\
                                   userId c = "user-1"%string) /\
    (S = [] \/ (sumTokens S <= 5)%Z) /\
    buildContextForQuery RAGInputs.twoStore RAGInputs.queryX 1 "user-1" 5
    = JS.trim (blocks S).
Proof.
  assert (Hr : reachable RAGInputs.twoStore) by apply reach_idb.
  split; [exact Hr|].
  exact (buildContextForQuery_selected RAGInputs.twoStore RAGInputs.queryX 1 "user-1" 5 Hr).
Defined.

End QueryFacts.

(** ** Deleting documents and cleaning up a folder on IndexedDB *)
Module CleanupFacts.
Import Model Store Ingest Cleanup.

(** The chunk ids read through [by-document] for the documents [ids]. *)
Definition removedKey (ids : list string) (chunks : list FolderChunk) (k : string) : Prop :=
  exists c', In c' chunks /\ In (documentId c') ids /\ chunkId c' = k.

Definition deleteAll (ds : list FolderDocument) (db : IDBState) : IDBState :=
  fold_left (fun db d => deleteDocumentIDB (docId d) db) ds db.

Lemma In_idbDelete {A} (key : A -> string) (k : string) (l : list A) (y : A) :
  In y (idbDelete key k l) <-> In y l /\ key y <> k.
Proof. unfold idbDelete. rewrite filter_In, negb_true_iff, String.eqb_neq. reflexivity. Qed.

Lemma In_fold_delete {A B} (key : A -> string) (kb : B -> string) (S : list B) :
  forall l y,
  In y (fold_left (fun l b => idbDelete key (kb b) l) S l)
  <-> In y l /\ forall b, In b S -> key y <> kb b.
Proof.
  induction S as [|b S IH]; intros l y; simpl.
  - split; [intros H; split; [exact H|intros _ []]|tauto].
  - rewrite IH, In_idbDelete. split.
    + intros [[Hy Hb] HS]. split; [exact Hy|]. intros b' [<-|Hb']; auto.
    + intros [Hy HS]. auto.
Qed.

Lemma removedKey_one (id : string) (chunks : list FolderChunk) (k : string) :
  (forall b, In b (List.filter (fun c => String.eqb (documentId c) id) chunks) ->
   k <> chunkId b) <-> ~ removedKey [id] chunks k.
Proof.
  unfold removedKey. split.
  - intros H (c' & Hc & [Hd|[]] & Hk). apply (H c'); [|congruence].
    apply filter_In. split; [exact Hc|]. apply String.eqb_eq. congruence.
  - intros H b Hb Hk. apply filter_In in Hb as [Hb Hd]. apply String.eqb_eq in Hd.
    apply H. exists b. split; [exact Hb|]. split; [left; congruence|congruence].
Qed.

Lemma removedKey_nil (chunks : list FolderChunk) (k : string) : ~ removedKey [] chunks k.
Proof. intros (c' & _ & [] & _). Qed.

Lemma removedKey_cons (id : string) (ids : list string) (chunks : list FolderChunk)
    (k : string) :
  removedKey (id :: ids) chunks k <-> removedKey [id] chunks k \/ removedKey ids chunks k.
Proof.
  unfold removedKey. split.
  - intros (c' & Hc & [Hi|Hi] & Hk); [left|right]; exists c'; simpl; auto.
  - intros [(c' & Hc & [Hi|[]] & Hk)|(c' & Hc & Hi & Hk)]; exists c'; simpl; auto.
Qed.

Lemma removedKey_step (id : string) (ids : list string) (ch0 ch1 : list FolderChunk)
    (k : string) :
  (forall c, In c ch1 <-> In c ch0 /\ ~ removedKey [id] ch0 (chunkId c)) ->
  ~ removedKey [id] ch0 k -> (removedKey ids ch1 k <-> removedKey ids ch0 k).
Proof.
  intros Hch Hk. split.
  - intros (c' & Hc & Hi & Hck). apply Hch in Hc as [Hc _]. exists c'. auto.
  - intros (c' & Hc & Hi & Hck). exists c'. split; [|auto].
    apply Hch. split; [exact Hc|]. rewrite Hck. exact Hk.
Qed.

Lemma deleteDocumentIDB_spec (id : string) (db : IDBState) :
  (forall d, In d (folderDocuments (deleteDocumentIDB id db))
             <-> In d (folderDocuments db) /\ docId d <> id) /\
  (forall c, In c (folderChunks (deleteDocumentIDB id db))
             <-> In c (folderChunks db) /\ ~ removedKey [id] (folderChunks db) (chunkId c)) /\
  (forall e, In e (folderEmbeddings (deleteDocumentIDB id db))
             <-> In e (folderEmbeddings db) /\ ~ removedKey [id] (folderChunks db) (embId e)) /\
  folderKnowledgeGraphs (deleteDocumentIDB id db) = folderKnowledgeGraphs db.
Proof.
  unfold deleteDocumentIDB.
  cbn [folderDocuments folderChunks folderEmbeddings folderKnowledgeGraphs].
  split; [intros d; apply In_idbDelete|]. split; [|split; [|reflexivity]].
  - intros c. rewrite (In_fold_delete chunkId chunkId), removedKey_one. reflexivity.
  - intros e. rewrite (In_fold_delete embId chunkId), removedKey_one. reflexivity.
Qed.

Lemma deleteAll_spec (ds : list FolderDocument) :
  forall db,
  (forall d, In d (folderDocuments (deleteAll ds db))
             <-> In d (folderDocuments db) /\ ~ In (docId d) (map docId ds)) /\
  (forall c, In c (folderChunks (deleteAll ds db))
             <-> In c (folderChunks db)
                 /\ ~ removedKey (map docId ds) (folderChunks db) (chunkId c)) /\
  (forall e, In e (folderEmbeddings (deleteAll ds db))
             <-> In e (folderEmbeddings db)
                 /\ ~ removedKey (map docId ds) (folderChunks db) (embId e)) /\
  folderKnowledgeGraphs (deleteAll ds db) = folderKnowledgeGraphs db.
Proof.
  unfold deleteAll. induction ds as [|d ds IH]; intros db; cbn [fold_left map].
  - split; [intros x; simpl; tauto|].
    split; [intros x; pose proof (removedKey_nil (folderChunks db) (chunkId x)); tauto|].
    split; [intros x; pose proof (removedKey_nil (folderChunks db) (embId x)); tauto|].
    reflexivity.
  - destruct (deleteDocumentIDB_spec (docId d) db) as (D1 & D2 & D3 & D4).
    destruct (IH (deleteDocumentIDB (docId d) db)) as (I1 & I2 & I3 & I4).
    split; [|split; [|split]].
    + intros x. rewrite I1, D1. simpl. split.
      * intros [[Hx Hn] Hm]. split; [exact Hx|]. intros [E|E]; [congruence|tauto].
      * intros [Hx Hn]. split; [split; [exact Hx|]|]; intros E; apply Hn;
          [left; congruence|right; exact E].
    + intros x. rewrite I2, D2, (removedKey_cons (docId d) (map docId ds)). split.
      * intros [[Hx Hn1] Hn2]. split; [exact Hx|]. intros [H|H]; [exact (Hn1 H)|].
        apply Hn2. apply (removedKey_step _ _ _ _ _ D2 Hn1). exact H.
      * intros [Hx Hn].
        assert (Hn1 : ~ removedKey [docId d] (folderChunks db) (chunkId x)) by tauto.
        split; [split; [exact Hx|exact Hn1]|]. intros H. apply Hn. right.
        apply (removedKey_step _ _ _ _ _ D2 Hn1). exact H.
    + intros x. rewrite I3, D3, (removedKey_cons (docId d) (map docId ds)). split.
      * intros [[Hx Hn1] Hn2]. split; [exact Hx|]. intros [H|H]; [exact (Hn1 H)|].
        apply Hn2. apply (removedKey_step _ _ _ _ _ D2 Hn1). exact H.
      * intros [Hx Hn].
        assert (Hn1 : ~ removedKey [docId d] (folderChunks db) (embId x)) by tauto.
        split; [split; [exact Hx|exact Hn1]|]. intros H. apply Hn. right.
        apply (removedKey_step _ _ _ _ _ D2 Hn1). exact H.
    + rewrite I4, D4. reflexivity.
Qed.

Lemma filter_none {A} (p : A -> bool) (l : list A) :
  (forall x, In x l -> p x = false) -> List.filter p l = [].
Proof.
  induction l as [|x l IH]; intros H; simpl; [reflexivity|].
  rewrite (H x (or_introl eq_refl)). apply IH. intros y Hy. exact (H y (or_intror Hy)).
Qed.

(** On IndexedDB, [deleteDocument id] removes the documents with id [id],
    every chunk whose id is that of a chunk of document [id], and every
    embedding whose id is the id of such a chunk; nothing else changes.
    In memory mode it changes nothing. *)
Theorem deleteDocument_spec (id : string) (db : IDBState) (m : gmap string MVal) :
  deleteDocument id (Memory m) = Memory m /\
  exists db', deleteDocument id (IndexedDB db) = IndexedDB db' /\
  (forall d, In d (folderDocuments db') <-> In d (folderDocuments db) /\ docId d <> id) /\
  (forall c, In c (folderChunks db') <-> In c (folderChunks db) /\
     ~ exists c', In c' (folderChunks db) /\ documentId c' = id /\ chunkId c' = chunkId c) /\
  (forall e, In e (folderEmbeddings db') <-> In e (folderEmbeddings db) /\
     ~ exists c', In c' (folderChunks db) /\ documentId c' = id /\ chunkId c' = embId e) /\
  folderKnowledgeGraphs db' = folderKnowledgeGraphs db.
Proof.
  split; [reflexivity|]. exists (deleteDocumentIDB id db). split; [reflexivity|].
  destruct (deleteDocumentIDB_spec id db) as (D1 & D2 & D3 & D4).
  assert (Hk : forall k, removedKey [id] (folderChunks db) k <->
            exists c', In c' (folderChunks db) /\ documentId c' = id /\ chunkId c' = k).
  { intros k. unfold removedKey. simpl. split.
    - intros (c' & Hc & [Hi|[]] & Hck). eauto.
    - intros (c' & Hc & Hi & Hck). exists c'. auto. }
  split; [exact D1|]. split; [|split; [|exact D4]].
  - intros c. rewrite D2, Hk. reflexivity.
  - intros e. rewrite D3, Hk. reflexivity.
Qed.

(** On IndexedDB, [cleanupFolder f u] leaves no document and no graph in
    the scope. It removes the scope's documents, the chunks and embeddings
    reached through the ids of those documents, and every graph sharing an
    id with a graph of the scope, whatever its user; everything else stays,
    including chunks and embeddings of the scope whose document is not
    listed in it. *)
Theorem cleanupFolder_idb (db : IDBState) (f : Z) (u : string) :
  exists db', cleanupFolder f u (IndexedDB db) = IndexedDB db' /\
  getDocuments (IndexedDB db') f u = [] /\
  getKnowledgeGraph (IndexedDB db') f u = None /\
  (forall d, In d (folderDocuments db') <-> In d (folderDocuments db) /\
     ~ In (docId d) (map docId (getDocuments (IndexedDB db) f u))) /\
  (forall c, In c (folderChunks db') <-> In c (folderChunks db) /\
     ~ exists c', In c' (folderChunks db) /\
         In (documentId c') (map docId (getDocuments (IndexedDB db) f u)) /\
         chunkId c' = chunkId c) /\
  (forall e, In e (folderEmbeddings db') <-> In e (folderEmbeddings db) /\
     ~ exists c', In c' (folderChunks db) /\
         In (documentId c') (map docId (getDocuments (IndexedDB db) f u)) /\
         chunkId c' = embId e) /\
  (forall g, In g (folderKnowledgeGraphs db') <-> In g (folderKnowledgeGraphs db) /\
     ~ exists g', In g' (folderKnowledgeGraphs db) /\ graphFolderId g' = f /\
         graphUserId g' = u /\ graphId g' = graphId g).
Proof.
  set (docs := getDocuments (IndexedDB db) f u).
  set (scope := fun g => (Z.eqb (graphFolderId g) f && String.eqb (graphUserId g) u)%bool).
  exists (mkIDB (folderDocuments (deleteAll docs db)) (folderChunks (deleteAll docs db))
            (folderEmbeddings (deleteAll docs db))
            (fold_left (fun l g => idbDelete graphId (graphId g) l)
               (List.filter scope (folderKnowledgeGraphs (deleteAll docs db)))
               (folderKnowledgeGraphs (deleteAll docs db)))).
  split; [reflexivity|].
  destruct (deleteAll_spec docs db) as (F1 & F2 & F3 & F4).
  split; [|split; [|split; [|split; [|split]]]].
  - unfold getDocuments. cbn [folderDocuments]. apply filter_none.
    intros x Hx. apply F1 in Hx as [Hx Hn].
    destruct (Z.eqb (docFolderId x) f && String.eqb (docUserId x) u)%bool eqn:E;
      [|reflexivity].
    exfalso. apply Hn. apply in_map. unfold docs, getDocuments. apply filter_In. auto.
  - unfold getKnowledgeGraph. cbn [folderKnowledgeGraphs].
    rewrite filter_none; [reflexivity|]. intros g Hg.
    apply (In_fold_delete graphId graphId) in Hg as [Hg Hn].
    destruct (scope g) eqn:E; [|exact E].
    exfalso. apply (Hn g); [apply filter_In; auto|reflexivity].
  - exact F1.
  - exact F2.
  - exact F3.
  - intros g. cbn [folderKnowledgeGraphs].
    rewrite (In_fold_delete graphId graphId), F4. split.
    + intros [Hg Hn]. split; [exact Hg|]. intros (g' & Hg' & Hf & Hu & Hid).
      apply (Hn g'); [|congruence]. apply filter_In. split; [exact Hg'|].
      unfold scope. rewrite Hf, Hu, Z.eqb_refl, String.eqb_refl. reflexivity.
    + intros [Hg Hn]. split; [exact Hg|]. intros g' Hg' Hid.
      apply filter_In in Hg' as [Hg' Hs]. unfold scope in Hs.
      apply andb_true_iff in Hs as [Hf Hu]. apply Z.eqb_eq in Hf.
      apply String.eqb_eq in Hu. apply Hn. exists g'. split; [exact Hg'|].
      split; [exact Hf|]. split; [exact Hu|]. congruence.
Qed.

End CleanupFacts.

(** ** Contexts built with a model's limits and their validation *)
Module ModelLimitsFacts.
Import ContextManager ModelLimits.

Lemma pairWalk_parity fl avail rest sel used tr :
  exists k, length (pairWalk fl avail rest sel used tr).1.1 = (length sel + 2 * k)%nat.
Proof.
  revert rest sel used tr.
  fix IH 1. intros rest sel used tr.
  destruct rest as [|a [|u rest']]; simpl; try (exists 0%nat; lia).
  destruct (_ && _); simpl; [|exists 0%nat; lia].
  destruct (IH rest' (u :: a :: sel) (used + (estimateMessageTokens a
    + estimateMessageTokens u))%Z tr) as [k Hk].
  exists (S k). simpl in Hk. lia.
Qed.

Lemma maxMessages_getModelLimits (model : string) :
  maxMessages (getModelLimits model) = 20%Z.
Proof.
  unfold getModelLimits.
  destruct (List.find _ _) as [[k l]|] eqn:E; [|reflexivity].
  apply find_some in E as [Hin _].
  repeat (destruct Hin as [Hin|Hin]; [injection Hin as _ <-; reflexivity|]).
  destruct Hin.
Qed.

Lemma buildContext_user_last (pre : list OpenRouterMessage) (m : OpenRouterMessage)
    (sp : string) (pl : PartialTokenLimits) :
  role m = RUser ->
  exists k, length (messages (buildContext (pre ++ [m]) sp pl)) = (2 + 2 * k)%nat /\
    (Z.of_nat (length (messages (buildContext (pre ++ [m]) sp pl)))
     <= Z.max (maxMessages (finalLimits pl)) 1 + 1)%Z.
Proof.
  intros Hr.
  assert (Hne : exists h t, pre ++ [m] = h :: t) by (destruct pre; simpl; eauto).
  destruct Hne as (h & t & Ht).
  unfold buildContext. cbv zeta. rewrite Ht. cbv iota beta.
  rewrite <- Ht, rev_unit.
  assert (Hl : exists x, (latestStep (availableTokens sp (finalLimits pl)) m).1.1 = [x]).
  { unfold latestStep. rewrite Hr. simpl.
    destruct (_ <=? _)%Z; simpl; eauto. }
  destruct (latestStep (availableTokens sp (finalLimits pl)) m) as [[s0 u0] t0].
  destruct Hl as [x Hx]. simpl in Hx. subst s0.
  pose proof (pairWalk_parity (finalLimits pl) (availableTokens sp (finalLimits pl))
                (tail (m :: rev pre)) [x] u0 t0) as [k Hk].
  pose proof (ContextExtraFacts.pairWalk_length (finalLimits pl)
                (availableTokens sp (finalLimits pl)) (tail (m :: rev pre)) [x] u0 t0) as Hb.
  destruct (pairWalk _ _ _ _ _ _) as [[sel used] tr]. simpl in *.
  exists k. split; lia.
Qed.

(** When the last message of the history is a user message, the context
    that [buildContext] builds with [getModelLimits model] has at most 20
    messages, the [maxMessages] of every model; [validateContext] then
    accepts it exactly when its token total is within the model's
    [maxTokens]. *)
Theorem validateContext_user_last (model sp : string) (pre : list OpenRouterMessage)
    (m : OpenRouterMessage) :
  role m = RUser ->
  (length (messages (buildContext (pre ++ [m]) sp (asPartial (getModelLimits model))))
   <= 20)%nat /\
  valid (validateContext (buildContext (pre ++ [m]) sp (asPartial (getModelLimits model)))
           model)
  = negb (maxTokens (getModelLimits model)
          <? totalTokens (buildContext (pre ++ [m]) sp
                            (asPartial (getModelLimits model))))%Z.
Proof.
  intros Hr.
  destruct (buildContext_user_last pre m sp (asPartial (getModelLimits model)) Hr)
    as [k [Hk Hb]].
  assert (Hf : maxMessages (finalLimits (asPartial (getModelLimits model))) = 20%Z).
  { simpl. apply maxMessages_getModelLimits. }
  rewrite Hf in Hb.
  assert (Hlen : (length (messages (buildContext (pre ++ [m]) sp
                                     (asPartial (getModelLimits model)))) <= 20)%nat) by lia.
  split; [exact Hlen|].
  unfold validateContext. cbv zeta.
  destruct (_ <? totalTokens _)%Z; [reflexivity|].
  rewrite maxMessages_getModelLimits.
  replace (20 <? _)%Z with false by (symmetry; apply Z.ltb_ge; lia).
  reflexivity.
Qed.

Lemma validateContext_user_last_witness :
  role (mkMsg RUser "hello") = RUser /\
  (length (messages (buildContext ([] ++ [mkMsg RUser "hello"]) "Be brief"
                       (asPartial (getModelLimits "gpt-4")))) <= 20)%nat.
Proof.
  split; [reflexivity|].
  exact (proj1 (validateContext_user_last "gpt-4" "Be brief" [] (mkMsg RUser "hello")
                  eq_refl)).
Defined.

End ModelLimitsFacts.
